(** * CanvasPointer: click / double-click / drag disambiguation

    A shallow embedding of [src/CanvasPointer.ts].  The class turns a stream
    of raw pointer events (down / move / up) into calls of the callbacks the
    host registered on the instance.

    Conventions of the embedding.
    - JavaScript numbers (coordinates, time stamps, button indices and
      button masks) are integers in [Z]; [&] on button masks is [Z.land].
    - An optional property ([eDown], [onClick], ...) is an [option]; [null],
      [undefined] and a deleted property all read as [None].
    - A callback is an opaque host function.  Calling it is recorded in a
      trace and it either returns or throws; it is taken not to call back
      into the instance it is registered on.
    - The instance methods run in a state monad over [World] (the instance,
      the capture state of its element and the trace) whose result is either
      a value or a thrown exception; the state reached before a [throw] is
      kept, as in JavaScript. *)

From Stdlib Require Import ZArith List Bool Lia.
From stdpp Require Import base decidable countable gmap.
Import ListNotations.

Local Open Scope Z_scope.

(** ** Pointer events *)

(** The fields of [CanvasPointerEvent] the class reads. *)
Module Event.

Record t : Type := mk {
  pointerId : Z;
  button : Z;
  buttons : Z;
  clientX : Z;
  clientY : Z;
  timeStamp : Z
}.

End Event.

(** Modelled from the spec: [dist2] is imported from [./measure], which is
    not part of the sources at hand; the specification describes it as the
    pure function computing the squared Euclidean distance between two 2D
    points. *)
Definition dist2 (ax ay bx by_ : Z) : Z :=
  (bx - ax) * (bx - ax) + (by_ - ay) * (by_ - ay).

(** ** Static configuration *)

(** The static members of the class: [bufferTime], [doubleClickTime] and the
    private pair [#maxClickDrift] / [#maxClickDrift2]. *)
Record Config : Type := mkConfig {
  bufferTime : Z;
  doubleClickTime : Z;
  maxClickDrift : Z;       (* static #maxClickDrift, read by the getter *)
  maxClickDrift2 : Z       (* static #maxClickDrift2 *)
}.

(** Values of the static initialisers: 150, 300, 6 and [6 ** 2]. *)
Definition initial_config : Config :=
  {| bufferTime := 150; doubleClickTime := 300;
     maxClickDrift := 6; maxClickDrift2 := 6 ^ 2 |}.

(** [static set maxClickDrift(value)]. *)
Definition set_maxClickDrift (value : Z) (c : Config) : Config :=
  {| bufferTime := bufferTime c; doubleClickTime := doubleClickTime c;
     maxClickDrift := value; maxClickDrift2 := value * value |}.

(** Plain assignments to the two public static fields. *)
Definition set_bufferTime (value : Z) (c : Config) : Config :=
  {| bufferTime := value; doubleClickTime := doubleClickTime c;
     maxClickDrift := maxClickDrift c; maxClickDrift2 := maxClickDrift2 c |}.

Definition set_doubleClickTime (value : Z) (c : Config) : Config :=
  {| bufferTime := bufferTime c; doubleClickTime := value;
     maxClickDrift := maxClickDrift c; maxClickDrift2 := maxClickDrift2 c |}.

(** Every way client code can write the static configuration: the two public
    fields and the [maxClickDrift] accessor (the [#]-fields are private). *)
Inductive ConfigWrite : Type :=
  | WriteBufferTime (value : Z)
  | WriteDoubleClickTime (value : Z)
  | WriteMaxClickDrift (value : Z).

Definition config_write (c : Config) (a : ConfigWrite) : Config :=
  match a with
  | WriteBufferTime v => set_bufferTime v c
  | WriteDoubleClickTime v => set_doubleClickTime v c
  | WriteMaxClickDrift v => set_maxClickDrift v c
  end.

Definition config_writes (c : Config) (l : list ConfigWrite) : Config :=
  fold_left config_write l c.

(** ** Callbacks and observable effects *)

(** An opaque host callback: an identity, and whether a call of it throws. *)
Record Callback : Type := mkCallback {
  cb_id : nat;
  cb_throws : bool
}.

#[global] Instance Callback_eq_dec : EqDecision Callback.
Proof. solve_decision. Defined.

(** The six callback properties of an instance. *)
Inductive Slot : Type :=
  | OnDragStart | OnDrag | OnDragEnd | OnClick | OnDoubleClick | Finally.

#[global] Instance Slot_eq_dec : EqDecision Slot.
Proof. solve_decision. Defined.

(** What a callback is called with: [onDragStart] receives the instance,
    [finally] nothing, the others the event. *)
Inductive Arg : Type :=
  | ArgThis
  | ArgNone
  | ArgEvent (e : Event.t).

(** Effects visible outside the instance, in the order they happen. *)
Inductive Effect : Type :=
  | Fired (s : Slot) (f : Callback) (a : Arg)
  | SetCapture (pid : Z)
  | ReleaseCapture (pid : Z).

(** ** Instance state *)

Record Pointer : Type := mkPointer {
  pointerId : option Z;
  dragStarted : bool;
  eLastDown : option Event.t;
  isDouble : bool;
  isDown : bool;
  clearEventsOnReset : bool;
  eDown : option Event.t;
  eMove : option Event.t;
  eUp : option Event.t;
  onDragStart : option Callback;
  onDrag : option Callback;
  onDragEnd : option Callback;
  onClick : option Callback;
  onDoubleClick : option Callback;
  finally : option Callback          (* the private #finally *)
}.

(** Field assignments [this.f = v] (and [delete this.f] with [v = None]). *)
Definition with_pointerId (v : option Z) (p : Pointer) : Pointer :=
  {| pointerId := v; dragStarted := dragStarted p; eLastDown := eLastDown p;
     isDouble := isDouble p; isDown := isDown p;
     clearEventsOnReset := clearEventsOnReset p; eDown := eDown p;
     eMove := eMove p; eUp := eUp p; onDragStart := onDragStart p;
     onDrag := onDrag p; onDragEnd := onDragEnd p; onClick := onClick p;
     onDoubleClick := onDoubleClick p; finally := finally p |}.

Definition with_dragStarted (v : bool) (p : Pointer) : Pointer :=
  {| pointerId := pointerId p; dragStarted := v; eLastDown := eLastDown p;
     isDouble := isDouble p; isDown := isDown p;
     clearEventsOnReset := clearEventsOnReset p; eDown := eDown p;
     eMove := eMove p; eUp := eUp p; onDragStart := onDragStart p;
     onDrag := onDrag p; onDragEnd := onDragEnd p; onClick := onClick p;
     onDoubleClick := onDoubleClick p; finally := finally p |}.

Definition with_eLastDown (v : option Event.t) (p : Pointer) : Pointer :=
  {| pointerId := pointerId p; dragStarted := dragStarted p; eLastDown := v;
     isDouble := isDouble p; isDown := isDown p;
     clearEventsOnReset := clearEventsOnReset p; eDown := eDown p;
     eMove := eMove p; eUp := eUp p; onDragStart := onDragStart p;
     onDrag := onDrag p; onDragEnd := onDragEnd p; onClick := onClick p;
     onDoubleClick := onDoubleClick p; finally := finally p |}.

Definition with_isDouble (v : bool) (p : Pointer) : Pointer :=
  {| pointerId := pointerId p; dragStarted := dragStarted p;
     eLastDown := eLastDown p; isDouble := v; isDown := isDown p;
     clearEventsOnReset := clearEventsOnReset p; eDown := eDown p;
     eMove := eMove p; eUp := eUp p; onDragStart := onDragStart p;
     onDrag := onDrag p; onDragEnd := onDragEnd p; onClick := onClick p;
     onDoubleClick := onDoubleClick p; finally := finally p |}.

Definition with_isDown (v : bool) (p : Pointer) : Pointer :=
  {| pointerId := pointerId p; dragStarted := dragStarted p;
     eLastDown := eLastDown p; isDouble := isDouble p; isDown := v;
     clearEventsOnReset := clearEventsOnReset p; eDown := eDown p;
     eMove := eMove p; eUp := eUp p; onDragStart := onDragStart p;
     onDrag := onDrag p; onDragEnd := onDragEnd p; onClick := onClick p;
     onDoubleClick := onDoubleClick p; finally := finally p |}.

Definition with_eDown (v : option Event.t) (p : Pointer) : Pointer :=
  {| pointerId := pointerId p; dragStarted := dragStarted p;
     eLastDown := eLastDown p; isDouble := isDouble p; isDown := isDown p;
     clearEventsOnReset := clearEventsOnReset p; eDown := v;
     eMove := eMove p; eUp := eUp p; onDragStart := onDragStart p;
     onDrag := onDrag p; onDragEnd := onDragEnd p; onClick := onClick p;
     onDoubleClick := onDoubleClick p; finally := finally p |}.

Definition with_eMove (v : option Event.t) (p : Pointer) : Pointer :=
  {| pointerId := pointerId p; dragStarted := dragStarted p;
     eLastDown := eLastDown p; isDouble := isDouble p; isDown := isDown p;
     clearEventsOnReset := clearEventsOnReset p; eDown := eDown p;
     eMove := v; eUp := eUp p; onDragStart := onDragStart p;
     onDrag := onDrag p; onDragEnd := onDragEnd p; onClick := onClick p;
     onDoubleClick := onDoubleClick p; finally := finally p |}.

Definition with_eUp (v : option Event.t) (p : Pointer) : Pointer :=
  {| pointerId := pointerId p; dragStarted := dragStarted p;
     eLastDown := eLastDown p; isDouble := isDouble p; isDown := isDown p;
     clearEventsOnReset := clearEventsOnReset p; eDown := eDown p;
     eMove := eMove p; eUp := v; onDragStart := onDragStart p;
     onDrag := onDrag p; onDragEnd := onDragEnd p; onClick := onClick p;
     onDoubleClick := onDoubleClick p; finally := finally p |}.

Definition with_onDragStart (v : option Callback) (p : Pointer) : Pointer :=
  {| pointerId := pointerId p; dragStarted := dragStarted p;
     eLastDown := eLastDown p; isDouble := isDouble p; isDown := isDown p;
     clearEventsOnReset := clearEventsOnReset p; eDown := eDown p;
     eMove := eMove p; eUp := eUp p; onDragStart := v; onDrag := onDrag p;
     onDragEnd := onDragEnd p; onClick := onClick p;
     onDoubleClick := onDoubleClick p; finally := finally p |}.

Definition with_onDrag (v : option Callback) (p : Pointer) : Pointer :=
  {| pointerId := pointerId p; dragStarted := dragStarted p;
     eLastDown := eLastDown p; isDouble := isDouble p; isDown := isDown p;
     clearEventsOnReset := clearEventsOnReset p; eDown := eDown p;
     eMove := eMove p; eUp := eUp p; onDragStart := onDragStart p;
     onDrag := v; onDragEnd := onDragEnd p; onClick := onClick p;
     onDoubleClick := onDoubleClick p; finally := finally p |}.

Definition with_onDragEnd (v : option Callback) (p : Pointer) : Pointer :=
  {| pointerId := pointerId p; dragStarted := dragStarted p;
     eLastDown := eLastDown p; isDouble := isDouble p; isDown := isDown p;
     clearEventsOnReset := clearEventsOnReset p; eDown := eDown p;
     eMove := eMove p; eUp := eUp p; onDragStart := onDragStart p;
     onDrag := onDrag p; onDragEnd := v; onClick := onClick p;
     onDoubleClick := onDoubleClick p; finally := finally p |}.

Definition with_onClick (v : option Callback) (p : Pointer) : Pointer :=
  {| pointerId := pointerId p; dragStarted := dragStarted p;
     eLastDown := eLastDown p; isDouble := isDouble p; isDown := isDown p;
     clearEventsOnReset := clearEventsOnReset p; eDown := eDown p;
     eMove := eMove p; eUp := eUp p; onDragStart := onDragStart p;
     onDrag := onDrag p; onDragEnd := onDragEnd p; onClick := v;
     onDoubleClick := onDoubleClick p; finally := finally p |}.

Definition with_onDoubleClick (v : option Callback) (p : Pointer) : Pointer :=
  {| pointerId := pointerId p; dragStarted := dragStarted p;
     eLastDown := eLastDown p; isDouble := isDouble p; isDown := isDown p;
     clearEventsOnReset := clearEventsOnReset p; eDown := eDown p;
     eMove := eMove p; eUp := eUp p; onDragStart := onDragStart p;
     onDrag := onDrag p; onDragEnd := onDragEnd p; onClick := onClick p;
     onDoubleClick := v; finally := finally p |}.

Definition with_finally (v : option Callback) (p : Pointer) : Pointer :=
  {| pointerId := pointerId p; dragStarted := dragStarted p;
     eLastDown := eLastDown p; isDouble := isDouble p; isDown := isDown p;
     clearEventsOnReset := clearEventsOnReset p; eDown := eDown p;
     eMove := eMove p; eUp := eUp p; onDragStart := onDragStart p;
     onDrag := onDrag p; onDragEnd := onDragEnd p; onClick := onClick p;
     onDoubleClick := onDoubleClick p; finally := v |}.

(** The state of a freshly constructed instance (field initialisers). *)
Definition new_pointer : Pointer :=
  {| pointerId := None; dragStarted := false; eLastDown := None;
     isDouble := false; isDown := false; clearEventsOnReset := true;
     eDown := None; eMove := None; eUp := None; onDragStart := None;
     onDrag := None; onDragEnd := None; onClick := None;
     onDoubleClick := None; finally := None |}.

(** The instance, the pointer ids its [element] currently captures, and the
    effects so far. *)
Record World : Type := mkWorld {
  this : Pointer;
  captured : gset Z;
  trace : list Effect
}.

Definition new_world : World :=
  {| this := new_pointer; captured := ∅; trace := [] |}.

(** ** The method monad *)

Inductive Res (A : Type) : Type :=
  | Ok (a : A)
  | Throw.
Arguments Ok {A} a.
Arguments Throw {A}.

Definition M (A : Type) : Type := World -> Res A * World.

Definition ret {A} (a : A) : M A := fun w => (Ok a, w).

Definition bind {A B} (m : M A) (k : A -> M B) : M B :=
  fun w => match m w with
           | (Ok a, w') => k a w'
           | (Throw, w') => (Throw, w')
           end.

Notation "x <- m ;; k" := (bind m (fun x => k))
  (at level 100, m at next level, right associativity).
Notation "m ;; k" := (bind m (fun _ => k))
  (at level 100, right associativity).

(** [try { body } finally { fin }]: [fin] runs on both exits of [body]; a
    throw of [body] is re-thrown after it. *)
Definition try_finally (body fin : M unit) : M unit :=
  fun w => match body w with
           | (Ok _, w') => fin w'
           | (Throw, w') => (Throw, snd (fin w'))
           end.

(** The state a call leaves behind, whichever way it exits. *)
Definition exec {A} (m : M A) (w : World) : World := snd (m w).

Definition gets {A} (f : Pointer -> A) : M A := fun w => (Ok (f (this w)), w).

Definition assign (upd : Pointer -> Pointer) : M unit :=
  fun w => (Ok tt, {| this := upd (this w); captured := captured w;
                      trace := trace w |}).

Definition emit (x : Effect) : M unit :=
  fun w => (Ok tt, {| this := this w; captured := captured w;
                      trace := trace w ++ [x] |}).

(** Call of the callback held in slot [s]. *)
Definition call (s : Slot) (f : Callback) (a : Arg) : M unit :=
  emit (Fired s f a) ;;
  if cb_throws f then (fun w => (Throw, w)) else ret tt.

(** [this.slot?.(a)] *)
Definition call_opt (s : Slot) (f : option Callback) (a : Arg) : M unit :=
  match f with
  | Some f => call s f a
  | None => ret tt
  end.

(** ** The capture primitive of the bound element *)

(** Modelled from the spec: the element is an external collaborator with the
    three capabilities "capture pointer N", "release capture" and "is N
    captured"; it is kept as the set of pointer ids it captures.  An instance
    on which [down] never ran has no [pointerId], and nothing is captured for
    it. *)
Definition is_captured (c : gset Z) (pid : option Z) : bool :=
  match pid with
  | Some n => bool_decide (n ∈ c)
  | None => false
  end.

Definition add_capture (c : gset Z) (n : Z) : gset Z := {[n]} ∪ c.

Definition drop_capture (c : gset Z) (pid : option Z) : gset Z :=
  match pid with
  | Some n => c ∖ {[n]}
  | None => c
  end.

Definition release_effect (pid : option Z) : list Effect :=
  match pid with
  | Some n => [ReleaseCapture n]
  | None => []
  end.

Arguments is_captured : simpl never.
Arguments add_capture : simpl never.
Arguments drop_capture : simpl never.

Definition hasPointerCapture (pid : option Z) : M bool :=
  fun w => (Ok (is_captured (captured w) pid), w).

Definition setPointerCapture (n : Z) : M unit :=
  fun w => (Ok tt, {| this := this w; captured := add_capture (captured w) n;
                      trace := trace w ++ [SetCapture n] |}).

Definition releasePointerCapture (pid : option Z) : M unit :=
  fun w => (Ok tt, {| this := this w;
                      captured := drop_capture (captured w) pid;
                      trace := trace w ++ release_effect pid |}).

(** ** Methods *)

(** [set finally(value)]: the held callback runs first, inside [try]; the
    assignment sits in the [finally] block. *)
Definition set_finally (value : option Callback) : M unit :=
  try_finally
    (f <- gets finally ;; call_opt Finally f ArgNone)
    (assign (with_finally value)).

(** [reset()] *)
Definition reset : M unit :=
  set_finally None ;;
  assign (with_onClick None) ;;
  assign (with_onDoubleClick None) ;;
  assign (with_onDragStart None) ;;
  assign (with_onDrag None) ;;
  assign (with_onDragEnd None) ;;
  assign (with_isDown false) ;;
  assign (with_isDouble false) ;;
  assign (with_dragStarted false) ;;
  clear <- gets clearEventsOnReset ;;
  (if clear : bool
   then assign (with_eDown None) ;;
        assign (with_eMove None) ;;
        assign (with_eUp None)
   else ret tt) ;;
  pid <- gets pointerId ;;
  has <- hasPointerCapture pid ;;
  if has : bool then releasePointerCapture pid else ret tt.

(** [down(e)] *)
Definition down (e : Event.t) : M unit :=
  reset ;;
  assign (with_eDown (Some e)) ;;
  assign (with_pointerId (Some (Event.pointerId e))) ;;
  setPointerCapture (Event.pointerId e).

(** [#setDragStarted()] *)
Definition setDragStarted : M unit :=
  assign (with_dragStarted true) ;;
  f <- gets onDragStart ;;
  call_opt OnDragStart f ArgThis ;;
  assign (with_onDragStart None).

(** The proofs below reason about these three through their equations. *)
Arguments set_finally : simpl never.
Arguments reset : simpl never.
Arguments setDragStarted : simpl never.

Section Methods.

(** The static configuration in force while the methods run; they only
    read it. *)
Variable cfg : Config.

(** [#hasSamePosition(a, b, tolerance2)] *)
Definition hasSamePosition (a b : Event.t) (tolerance2 : Z) : bool :=
  let drift := dist2 (Event.clientX a) (Event.clientY a)
                     (Event.clientX b) (Event.clientY b) in
  drift <=? tolerance2.

(** [#isDoubleClick()] *)
Definition isDoubleClick (p : Pointer) : bool :=
  match eDown p, eLastDown p with
  | Some d, Some l =>
      let tolerance2 := (3 * maxClickDrift cfg) ^ 2 in
      let diff := Event.timeStamp d - Event.timeStamp l in
      (0 <? diff) && (diff <? doubleClickTime cfg)
        && hasSamePosition d l tolerance2
  | _, _ => false
  end.

(** [#completeClick(e)] *)
Definition completeClick (e : Event.t) : M unit :=
  d <- gets eDown ;;
  match d with
  | None => ret tt
  | Some d =>
      assign (with_eUp (Some e)) ;;
      started <- gets dragStarted ;;
      if started : bool then
        f <- gets onDragEnd ;; call_opt OnDragEnd f (ArgEvent e)
      else if negb (hasSamePosition e d (maxClickDrift2 cfg)) then
        setDragStarted ;;
        f <- gets onDragEnd ;; call_opt OnDragEnd f (ArgEvent e)
      else
        dc <- gets onDoubleClick ;;
        double <- gets isDoubleClick ;;
        match dc, double with
        | Some f, true =>
            call OnDoubleClick f (ArgEvent e) ;;
            assign (with_eLastDown None)
        | _, _ =>
            f <- gets onClick ;;
            call_opt OnClick f (ArgEvent e) ;;
            assign (with_eLastDown (Some d))
        end
  end.

(** [move(e)] *)
Definition move (e : Event.t) : M unit :=
  d <- gets eDown ;;
  match d with
  | None => ret tt
  | Some d =>
      if Event.buttons e =? 0 then reset
      else if Z.land (Event.buttons e) (Event.buttons d) =? 0 then
        completeClick e ;; reset
      else
        assign (with_eMove (Some e)) ;;
        f <- gets onDrag ;;
        call_opt OnDrag f (ArgEvent e) ;;
        started <- gets dragStarted ;;
        if started : bool then ret tt
        else
          let longerThanBufferTime :=
            bufferTime cfg <? Event.timeStamp e - Event.timeStamp d in
          if longerThanBufferTime
             || negb (hasSamePosition e d (maxClickDrift2 cfg))
          then setDragStarted
          else ret tt
  end.

(** [up(e)] *)
Definition up (e : Event.t) : M bool :=
  d <- gets eDown ;;
  match d with
  | None => ret false
  | Some d =>
      if negb (Event.button e =? Event.button d) then ret false
      else
        completeClick e ;;
        started <- gets dragStarted ;;
        reset ;;
        ret (negb started)
  end.

End Methods.

Arguments completeClick : simpl never.

(** ** Reading the trace *)

(** The effects a call adds to the trace when run from [w]. *)
Definition effects {A} (m : M A) (w : World) : list Effect :=
  drop (length (trace w)) (trace (exec m w)).

Definition is_call (s : Slot) (x : Effect) : bool :=
  match x with
  | Fired s' _ _ => bool_decide (s' = s)
  | _ => false
  end.

(** The calls made through slot [s], in order. *)
Definition calls (s : Slot) (tr : list Effect) : list Effect :=
  List.filter (is_call s) tr.

Definition is_call_of (f : Callback) (x : Effect) : bool :=
  match x with
  | Fired _ g _ => bool_decide (g = f)
  | _ => false
  end.

(** How many times callback [f] was invoked. *)
Definition invocations (f : Callback) (tr : list Effect) : nat :=
  length (List.filter (is_call_of f) tr).

Definition is_release (x : Effect) : bool :=
  match x with
  | ReleaseCapture _ => true
  | _ => false
  end.

Definition releases (tr : list Effect) : list Effect :=
  List.filter is_release tr.

Definition is_gesture_call (x : Effect) : bool :=
  match x with
  | Fired Finally _ _ => false
  | Fired _ _ _ => true
  | _ => false
  end.

(** The calls of the five gesture callbacks, in order. *)
Definition gesture_calls (tr : list Effect) : list Effect :=
  List.filter is_gesture_call tr.

(** The effect of [this.slot?.(a)]. *)
Definition fire_opt (s : Slot) (f : option Callback) (a : Arg) : list Effect :=
  match f with
  | Some f => [Fired s f a]
  | None => []
  end.

Definition throws_opt (f : option Callback) : bool :=
  match f with
  | Some f => cb_throws f
  | None => false
  end.

(** The fields [reset] leaves behind when it runs to its end. *)
Definition reset_fields (p : Pointer) : Pointer :=
  let keep (x : option Event.t) := if clearEventsOnReset p then None else x in
  {| pointerId := pointerId p; dragStarted := false; eLastDown := eLastDown p;
     isDouble := false; isDown := false;
     clearEventsOnReset := clearEventsOnReset p; eDown := keep (eDown p);
     eMove := keep (eMove p); eUp := keep (eUp p); onDragStart := None;
     onDrag := None; onDragEnd := None; onClick := None;
     onDoubleClick := None; finally := None |}.

(** The capture set and the release effect at the end of [reset]. *)
Definition released (w : World) : gset Z :=
  if is_captured (captured w) (pointerId (this w))
  then drop_capture (captured w) (pointerId (this w))
  else captured w.

Definition release_part (w : World) : list Effect :=
  if is_captured (captured w) (pointerId (this w))
  then release_effect (pointerId (this w))
  else [].

(** The host delivers each event in a handler call of its own: the moves of
    a session in arrival order, each run from the state the previous call
    left. *)
Definition run_moves (cfg : Config) (ms : list Event.t) (w : World) : World :=
  fold_left (fun w m => exec (move cfg m) w) ms w.

(** A whole gesture: the moves, then the closing [up]. *)
Definition session (cfg : Config) (ms : list Event.t) (u : Event.t)
    (w : World) : World :=
  exec (up cfg u) (run_moves cfg ms w).

Definition session_effects (cfg : Config) (ms : list Event.t) (u : Event.t)
    (w : World) : list Effect :=
  drop (length (trace w)) (trace (session cfg ms u w)).

(** What [#completeClick] calls on its click branches: [onDoubleClick] when
    it is set and the double-click test passes, [onClick] (if set)
    otherwise. *)
Definition click_part (cfg : Config) (p : Pointer) (e : Event.t)
    : list Effect :=
  match onDoubleClick p, isDoubleClick cfg p with
  | Some f, true => [Fired OnDoubleClick f (ArgEvent e)]
  | _, _ => fire_opt OnClick (onClick p) (ArgEvent e)
  end.

(** What [#completeClick] calls on its teleport branch. *)
Definition teleport_part (p : Pointer) (e : Event.t) : list Effect :=
  fire_opt OnDragStart (onDragStart p) ArgThis
    ++ fire_opt OnDragEnd (onDragEnd p) (ArgEvent e).

(** The position test of [move] and [#completeClick] against the cached
    squared drift. *)
Definition within_drift (cfg : Config) (a b : Event.t) : Prop :=
  dist2 (Event.clientX a) (Event.clientY a) (Event.clientX b) (Event.clientY b)
    <= maxClickDrift2 cfg.

(** A move that keeps one of the session's buttons down. *)
Definition keeps_button (m d : Event.t) : Prop :=
  Z.land (Event.buttons m) (Event.buttons d) <> 0.

(** ** Sample gestures

    Concrete events and states used to run the statements below. *)

(** Primary button pressed at the origin at time 0, pointer 1. *)
Definition ev_down : Event.t := Event.mk 1 0 1 0 0 0.
(** A small move with the primary button still held. *)
Definition ev_move_near : Event.t := Event.mk 1 0 1 2 1 40.
(** A move that reports only the secondary button. *)
Definition ev_move_other : Event.t := Event.mk 1 0 2 2 1 60.
(** Primary button released next to where it went down. *)
Definition ev_up_near : Event.t := Event.mk 1 0 0 3 2 90.
(** Primary button released far away (the teleport of the specification). *)
Definition ev_up_far : Event.t := Event.mk 1 0 0 100 100 10.
(** Release of the secondary button. *)
Definition ev_up_other : Event.t := Event.mk 1 2 0 3 2 90.
(** A second press, 10 pixels to the right, 100 ms after [ev_down]. *)
Definition ev_down_again : Event.t := Event.mk 1 0 1 10 0 100.

Definition cb_click : Callback := mkCallback 1 false.
Definition cb_double : Callback := mkCallback 2 false.
Definition cb_dragStart : Callback := mkCallback 3 false.
Definition cb_drag : Callback := mkCallback 4 false.
Definition cb_dragEnd : Callback := mkCallback 5 false.
Definition cb_cleanup : Callback := mkCallback 6 false.
Definition cb_cleanup' : Callback := mkCallback 7 false.
Definition cb_failing : Callback := mkCallback 8 true.

(** The host registers all five gesture callbacks and a cleanup. *)
Definition register_all : M unit :=
  assign (with_onClick (Some cb_click)) ;;
  assign (with_onDoubleClick (Some cb_double)) ;;
  assign (with_onDragStart (Some cb_dragStart)) ;;
  assign (with_onDrag (Some cb_drag)) ;;
  assign (with_onDragEnd (Some cb_dragEnd)) ;;
  set_finally (Some cb_cleanup).

(** A session just opened by [ev_down], all callbacks registered. *)
Definition tracking_world : World :=
  exec (down ev_down ;; register_all) new_world.

(** A session opened by [ev_down] on which the host registered only
    [onDoubleClick]. *)
Definition double_only_world : World :=
  exec (down ev_down ;; assign (with_onDoubleClick (Some cb_double)))
       new_world.

(** [tracking_world] after one small move. *)
Definition moved_world : World :=
  exec (move initial_config ev_move_near) tracking_world.

(** An idle instance whose cleanup callback throws. *)
Definition failing_world : World :=
  exec (set_finally (Some cb_failing)) new_world.

(** A click at the origin has completed, then [ev_down_again] opened a new
    session with all callbacks registered. *)
Definition second_press_world : World :=
  exec (down ev_down ;; register_all ;; up initial_config ev_up_near ;;
        down ev_down_again ;; register_all) new_world.

(** A move far from [ev_down] with the primary button held. *)
Definition ev_move_far : Event.t := Event.mk 1 0 1 50 0 20.
(** A late move next to [ev_down] with the primary button held. *)
Definition ev_move_late : Event.t := Event.mk 1 0 1 1 0 400.
(** A move that reports no button at all. *)
Definition ev_move_released : Event.t := Event.mk 1 0 0 2 1 50.
(** A press by another pointer. *)
Definition ev_down_other_pointer : Event.t := Event.mk 2 0 1 7 7 500.

(** [tracking_world] after a move that started the drag. *)
Definition dragging_world : World :=
  exec (move initial_config ev_move_far) tracking_world.

(** A session opened by [ev_down] whose cleanup callback throws. *)
Definition failing_session_world : World :=
  exec (down ev_down ;; assign (with_onClick (Some cb_click)) ;;
        set_finally (Some cb_failing)) new_world.

(** ** Whole runs

    What the host can do with an instance: call one of the four public
    methods, assign one of the five callback properties or [finally], or
    flip [clearEventsOnReset]. *)
Inductive Action : Type :=
  | Down (e : Event.t)
  | Move (e : Event.t)
  | Up (e : Event.t)
  | Reset
  | SetFinally (v : option Callback)
  | SetOnClick (v : option Callback)
  | SetOnDoubleClick (v : option Callback)
  | SetOnDragStart (v : option Callback)
  | SetOnDrag (v : option Callback)
  | SetOnDragEnd (v : option Callback)
  | SetClearEventsOnReset (b : bool).

Definition with_clearEventsOnReset (v : bool) (p : Pointer) : Pointer :=
  {| pointerId := pointerId p; dragStarted := dragStarted p;
     eLastDown := eLastDown p; isDouble := isDouble p; isDown := isDown p;
     clearEventsOnReset := v; eDown := eDown p;
     eMove := eMove p; eUp := eUp p; onDragStart := onDragStart p;
     onDrag := onDrag p; onDragEnd := onDragEnd p; onClick := onClick p;
     onDoubleClick := onDoubleClick p; finally := finally p |}.

(** The state after one action, whichever way the call exits. *)
Definition step (cfg : Config) (w : World) (a : Action) : World :=
  match a with
  | Down e => exec (down e) w
  | Move e => exec (move cfg e) w
  | Up e => exec (up cfg e) w
  | Reset => exec reset w
  | SetFinally v => exec (set_finally v) w
  | SetOnClick v => exec (assign (with_onClick v)) w
  | SetOnDoubleClick v => exec (assign (with_onDoubleClick v)) w
  | SetOnDragStart v => exec (assign (with_onDragStart v)) w
  | SetOnDrag v => exec (assign (with_onDrag v)) w
  | SetOnDragEnd v => exec (assign (with_onDragEnd v)) w
  | SetClearEventsOnReset b => exec (assign (with_clearEventsOnReset b)) w
  end.

Definition run (cfg : Config) (w : World) (l : list Action) : World :=
  fold_left (step cfg) l w.

(** The capture the instance is answerable for: nothing is captured, or a
    session is on record and exactly its pointer id is captured. *)
Definition capture_ok (w : World) : Prop :=
  captured w = ∅
  \/ exists n, pointerId (this w) = Some n /\ captured w = {[n]}
               /\ eDown (this w) <> None.

(** Dragging only happens inside a session. *)
Definition drag_ok (w : World) : Prop :=
  dragStarted (this w) = true -> eDown (this w) <> None.

(** All callbacks currently registered return normally. *)
Definition quiet (p : Pointer) : Prop :=
  throws_opt (onDragStart p) = false /\ throws_opt (onDrag p) = false
  /\ throws_opt (onDragEnd p) = false /\ throws_opt (onClick p) = false
  /\ throws_opt (onDoubleClick p) = false /\ throws_opt (finally p) = false.

(** The host may also write the static configuration between two calls. *)
Inductive HostAction : Type :=
  | Call (a : Action)
  | Configure (c : ConfigWrite).

Definition host_step (s : Config * World) (h : HostAction) : Config * World :=
  match h with
  | Call a => (fst s, step (fst s) (snd s) a)
  | Configure c => (config_write (fst s) c, snd s)
  end.

Definition host_run (s : Config * World) (l : list HostAction)
    : Config * World :=
  fold_left host_step l s.

(** The callback held in a slot. *)
Definition slot (s : Slot) (p : Pointer) : option Callback :=
  match s with
  | OnDragStart => onDragStart p
  | OnDrag => onDrag p
  | OnDragEnd => onDragEnd p
  | OnClick => onClick p
  | OnDoubleClick => onDoubleClick p
  | Finally => finally p
  end.

(** The actions that are calls of the four public methods. *)
Definition is_method_call (a : Action) : bool :=
  match a with
  | Down _ | Move _ | Up _ | Reset => true
  | _ => false
  end.

(** One step of a run in which callbacks are called at most once: the
    callbacks stay well-behaved, an empty slot stays empty, and a slot other
    than [onDrag] is called at most once, and is empty afterwards if it
    was. *)
Definition once_step (w w' : World) : Prop :=
  quiet (this w')
  /\ exists t,
       trace w' = trace w ++ t
       /\ forall s, s <> OnDrag ->
            (slot s (this w) = None -> slot s (this w') = None)
            /\ (calls s t = []
                \/ (length (calls s t) = 1%nat
                    /\ slot s (this w') = None
                    /\ slot s (this w) <> None)).

(** ** The lint-staged configuration

    The second source file maps glob patterns to functions from the list of
    staged file names to the commands to run on them. *)
Module LintStaged.

Import Stdlib.Strings.String.
Local Open Scope string_scope.

(** [fileNames.join(sep)] on an array of strings. *)
Definition join (sep : string) (fileNames : list string) : string :=
  concat sep fileNames.

(** [prettierAndEslint(fileNames)] *)
Definition prettierAndEslint (fileNames : list string) : list string :=
  [ ("prettier --write " ++ join " " fileNames)%string;
    ("eslint --fix " ++ join " " fileNames)%string ]%list.

(** The entry for ["*.css"]: one command. *)
Definition css_rule (stagedFiles : list string) : string :=
  "prettier --write " ++ join " " stagedFiles.

(** The entry for ["*.js"]. *)
Definition js_rule (stagedFiles : list string) : list string :=
  prettierAndEslint stagedFiles.

(** The entry for ["*.{ts,mts}"]: the spread of [prettierAndEslint], then
    the two type checks. *)
Definition ts_rule (stagedFiles : list string) : list string :=
  (prettierAndEslint stagedFiles ++ ["tsc --noEmit"; "tsc-strict"])%list.

(** [f] occurs in [s] as a contiguous piece. *)
Definition occurs_in (f s : string) : Prop :=
  exists pre post, s = pre ++ f ++ post.

End LintStaged.

(** * Properties *)

(** ** Equations of the methods *)

Lemma set_finally_eq v w :
  set_finally v w =
    (if throws_opt (finally (this w)) then Throw else Ok tt,
     {| this := with_finally v (this w); captured := captured w;
        trace := trace w ++ fire_opt Finally (finally (this w)) ArgNone |}).
Proof.
  unfold set_finally, try_finally, bind, gets, call_opt, call, emit, assign, ret.
  destruct w as [p c t]; cbn.
  destruct (finally p) as [f|]; cbn.
  - destruct (cb_throws f); reflexivity.
  - rewrite app_nil_r. reflexivity.
Qed.

Lemma reset_eq w :
  reset w =
    if throws_opt (finally (this w)) then
      (Throw, {| this := with_finally None (this w); captured := captured w;
                 trace := trace w ++ fire_opt Finally (finally (this w)) ArgNone |})
    else
      (Ok tt, {| this := reset_fields (this w); captured := released w;
                 trace := trace w ++ fire_opt Finally (finally (this w)) ArgNone
                            ++ release_part w |}).
Proof.
  unfold reset. unfold bind at 1. rewrite set_finally_eq.
  destruct (throws_opt (finally (this w))); [reflexivity|].
  unfold bind, gets, assign, ret, hasPointerCapture, releasePointerCapture,
    released, release_part, reset_fields.
  destruct w as [[pid ds el idb idn [] ed em eu c1 c2 c3 c4 c5 fin] c t]; cbn;
    destruct (is_captured c pid); cbn;
    rewrite ?app_nil_r, <- ?app_assoc; reflexivity.
Qed.

Lemma setDragStarted_eq w :
  setDragStarted w =
    (if throws_opt (onDragStart (this w)) then Throw else Ok tt,
     {| this := if throws_opt (onDragStart (this w))
                then with_dragStarted true (this w)
                else with_onDragStart None (with_dragStarted true (this w));
        captured := captured w;
        trace := trace w ++ fire_opt OnDragStart (onDragStart (this w)) ArgThis |}).
Proof.
  unfold setDragStarted, bind, gets, call_opt, call, emit, assign, ret.
  destruct w as [p c t]; cbn.
  destruct (onDragStart p) as [f|]; cbn.
  - destruct (cb_throws f); reflexivity.
  - rewrite app_nil_r. reflexivity.
Qed.

(** ** Traces *)

Lemma effects_app {A} (m : M A) w t :
  trace (exec m w) = trace w ++ t -> effects m w = t.
Proof. unfold effects. intros ->. apply drop_app_length. Qed.

Lemma calls_app s t1 t2 : calls s (t1 ++ t2) = calls s t1 ++ calls s t2.
Proof. apply List.filter_app. Qed.

Lemma gesture_calls_app t1 t2 :
  gesture_calls (t1 ++ t2) = gesture_calls t1 ++ gesture_calls t2.
Proof. apply List.filter_app. Qed.

Lemma releases_app t1 t2 : releases (t1 ++ t2) = releases t1 ++ releases t2.
Proof. apply List.filter_app. Qed.

Lemma calls_gesture s tr :
  s <> Finally -> calls s (gesture_calls tr) = calls s tr.
Proof.
  intros Hs. unfold calls, gesture_calls.
  induction tr as [|x tr IH]; [reflexivity|].
  destruct x as [s' f a| |]; cbn; try exact IH.
  destruct s'; cbn; rewrite IH; try reflexivity.
  rewrite bool_decide_eq_false_2; [reflexivity | congruence].
Qed.

Lemma gesture_calls_finally f a : gesture_calls (fire_opt Finally f a) = [].
Proof. destruct f; reflexivity. Qed.

Lemma gesture_calls_release w : gesture_calls (release_part w) = [].
Proof.
  unfold release_part, release_effect.
  destruct (is_captured _ _); [|reflexivity].
  destruct (pointerId (this w)); reflexivity.
Qed.

Lemma gesture_calls_fire s f a :
  s <> Finally -> gesture_calls (fire_opt s f a) = fire_opt s f a.
Proof. destruct f; [|reflexivity]. destruct s; cbn; congruence. Qed.

(** [reset] calls none of the five gesture callbacks. *)
Lemma reset_trace w :
  exists rest, trace (exec reset w) = trace w ++ rest
               /\ gesture_calls rest = [].
Proof.
  unfold exec. rewrite reset_eq.
  destruct (throws_opt (finally (this w))); cbn.
  - eexists; split; [reflexivity|]. apply gesture_calls_finally.
  - eexists; split; [reflexivity|].
    rewrite gesture_calls_app, gesture_calls_finally, gesture_calls_release.
    reflexivity.
Qed.

(** ** Branches of [#completeClick] *)

Lemma hasSamePosition_true cfg a b :
  hasSamePosition a b (maxClickDrift2 cfg) = true <-> within_drift cfg a b.
Proof. unfold hasSamePosition, within_drift. apply Z.leb_le. Qed.

Lemma hasSamePosition_false cfg a b :
  hasSamePosition a b (maxClickDrift2 cfg) = false <-> ~ within_drift cfg a b.
Proof. unfold hasSamePosition, within_drift. rewrite Z.leb_gt. lia. Qed.

Lemma completeClick_click cfg e w d :
  eDown (this w) = Some d ->
  dragStarted (this w) = false ->
  within_drift cfg e d ->
  trace (exec (completeClick cfg e) w) = trace w ++ click_part cfg (this w) e.
Proof.
  intros Hd Hs Hpos. apply hasSamePosition_true in Hpos.
  unfold exec, completeClick, click_part, bind, gets, assign, call_opt, call,
    emit, ret.
  rewrite Hd. cbn. rewrite Hs, Hpos. cbn.
  unfold isDoubleClick at 1. cbn. fold (isDoubleClick cfg (this w)).
  destruct (onDoubleClick (this w)) as [f|], (isDoubleClick cfg (this w));
    cbn.
  1: destruct (cb_throws f); reflexivity.
  all: destruct (onClick (this w)) as [g|]; cbn; rewrite ?app_nil_r;
    try destruct (cb_throws g); reflexivity.
Qed.

Lemma completeClick_teleport cfg e w d :
  eDown (this w) = Some d ->
  dragStarted (this w) = false ->
  ~ within_drift cfg e d ->
  throws_opt (onDragStart (this w)) = false ->
  trace (exec (completeClick cfg e) w) = trace w ++ teleport_part (this w) e.
Proof.
  intros Hd Hs Hpos Hq. apply hasSamePosition_false in Hpos.
  unfold exec, completeClick, teleport_part, bind, gets, assign.
  rewrite Hd. cbn. rewrite Hs, Hpos. cbn.
  rewrite setDragStarted_eq. cbn. rewrite Hq. cbn.
  unfold call_opt, call, bind, emit, ret.
  destruct (onDragEnd (this w)) as [g|]; cbn; rewrite ?app_nil_r;
    try destruct (cb_throws g); cbn; rewrite <- ?app_assoc; reflexivity.
Qed.

(** Whatever branch it takes, [#completeClick] stores the closing event in
    [eUp], leaves [eMove] and [clearEventsOnReset] alone and does not call
    [onDrag]. *)
Lemma completeClick_events cfg e w d :
  eDown (this w) = Some d ->
  let w' := exec (completeClick cfg e) w in
  eUp (this w') = Some e
  /\ eMove (this w') = eMove (this w)
  /\ clearEventsOnReset (this w') = clearEventsOnReset (this w)
  /\ exists t, trace w' = trace w ++ t /\ calls OnDrag t = [].
Proof.
  intros Hd.
  unfold exec, completeClick, bind, gets, assign.
  rewrite Hd. cbn.
  destruct (dragStarted (this w)); cbn.
  - unfold call_opt, call, bind, emit, ret.
    destruct (onDragEnd (this w)) as [g|]; cbn;
      try destruct (cb_throws g); cbn; repeat split;
      eexists; (split; [try reflexivity; symmetry; apply app_nil_r|]); reflexivity.
  - destruct (hasSamePosition e d (maxClickDrift2 cfg)); cbn.
    + unfold call_opt, call, bind, emit, ret.
      destruct (onDoubleClick (this w)) as [f|];
        destruct (isDoubleClick cfg (with_eUp (Some e) (this w))); cbn;
        try destruct (cb_throws f); cbn;
        try (destruct (onClick (this w)) as [g|]; cbn;
             try destruct (cb_throws g); cbn); repeat split;
        eexists; (split; [try reflexivity; symmetry; apply app_nil_r|]);
        reflexivity.
    + unfold setDragStarted, call_opt, call, bind, gets, assign, emit, ret.
      cbn.
      destruct (onDragStart (this w)) as [f|]; cbn;
        try destruct (cb_throws f); cbn;
        destruct (onDragEnd (this w)) as [g|]; cbn;
        try destruct (cb_throws g); cbn; repeat split;
        eexists; (split; [rewrite <- ?app_assoc; try reflexivity;
                          symmetry; apply app_nil_r|]); reflexivity.
Qed.

(** [up] on a matching button: [#completeClick], then (unless a callback
    threw) [reset], which adds no gesture call. *)
Lemma up_trace cfg e w d :
  eDown (this w) = Some d ->
  Event.button e = Event.button d ->
  exists rest,
    trace (exec (up cfg e) w)
      = trace (exec (completeClick cfg e) w) ++ rest
    /\ gesture_calls rest = [].
Proof.
  intros Hd Hb. unfold exec, up, bind at 1, gets. rewrite Hd. cbn.
  rewrite Hb, Z.eqb_refl. cbn. unfold bind at 1.
  destruct (completeClick cfg e w) as [[[]|] w1]; cbn.
  - destruct (reset_trace w1) as (rest & Ht & Hg). unfold exec in Ht.
    exists rest. split; [|exact Hg]. rewrite <- Ht.
    unfold bind. destruct (reset w1) as [[[]|] w2]; reflexivity.
  - exists []. split; [symmetry; apply app_nil_r | reflexivity].
Qed.

(** ** Moves inside a session *)

Lemma keeps_button_pressed m d : keeps_button m d -> Event.buttons m <> 0.
Proof.
  unfold keeps_button. intros H E. apply H. rewrite E. apply Z.land_0_l.
Qed.

(** A move that keeps the button down, stays within the drift and does not
    exceed the buffer time only records the event and calls [onDrag]. *)
Lemma move_within cfg m w d :
  eDown (this w) = Some d ->
  dragStarted (this w) = false ->
  keeps_button m d ->
  within_drift cfg m d ->
  Event.timeStamp m - Event.timeStamp d <= bufferTime cfg ->
  exec (move cfg m) w =
    {| this := with_eMove (Some m) (this w); captured := captured w;
       trace := trace w ++ fire_opt OnDrag (onDrag (this w)) (ArgEvent m) |}.
Proof.
  intros Hd Hs Hk Hpos Ht.
  pose proof (keeps_button_pressed _ _ Hk) as Hb.
  apply Z.eqb_neq in Hb. apply Z.eqb_neq in Hk.
  apply hasSamePosition_true in Hpos.
  apply Z.ltb_ge in Ht.
  unfold exec, move, bind, gets, assign, call_opt, call, emit, ret.
  rewrite Hd. cbn. rewrite Hb, Hk. cbn.
  destruct (onDrag (this w)) as [f|]; cbn; try destruct (cb_throws f); cbn;
    rewrite ?Hs, ?Ht, ?Hpos, ?app_nil_r; reflexivity.
Qed.

(** Any move that keeps the button down becomes [eMove]; it never touches the
    [finally] slot nor calls it. *)
Lemma move_tracked cfg e w d :
  eDown (this w) = Some d ->
  keeps_button e d ->
  finally (this (exec (move cfg e) w)) = finally (this w)
  /\ eMove (this (exec (move cfg e) w)) = Some e
  /\ exists t, trace (exec (move cfg e) w) = trace w ++ t
               /\ calls Finally t = [].
Proof.
  intros Hd Hk.
  pose proof (keeps_button_pressed _ _ Hk) as Hb.
  apply Z.eqb_neq in Hb. apply Z.eqb_neq in Hk.
  unfold exec, move, bind, gets, assign, call_opt, call, emit, ret.
  rewrite Hd. cbn. rewrite Hb, Hk. cbn.
  destruct (onDrag (this w)) as [f|]; cbn; try destruct (cb_throws f); cbn;
    try destruct (dragStarted (this w)); cbn;
    try destruct (_ || _); cbn; rewrite ?setDragStarted_eq; cbn;
    try (destruct (onDragStart (this w)) as [g|]; cbn;
         try destruct (cb_throws g); cbn);
    (split; [reflexivity|]); (split; [reflexivity|]);
    eexists; (split; [rewrite <- ?app_assoc; try reflexivity;
                      symmetry; apply app_nil_r|]); reflexivity.
Qed.

Lemma run_moves_within cfg ms : forall w d,
  eDown (this w) = Some d ->
  dragStarted (this w) = false ->
  Forall (fun m => keeps_button m d /\ within_drift cfg m d
                   /\ Event.timeStamp m - Event.timeStamp d <= bufferTime cfg)
         ms ->
  eDown (this (run_moves cfg ms w)) = Some d
  /\ dragStarted (this (run_moves cfg ms w)) = false
  /\ eLastDown (this (run_moves cfg ms w)) = eLastDown (this w)
  /\ onClick (this (run_moves cfg ms w)) = onClick (this w)
  /\ onDoubleClick (this (run_moves cfg ms w)) = onDoubleClick (this w)
  /\ trace (run_moves cfg ms w)
       = trace w ++ flat_map (fun m => fire_opt OnDrag (onDrag (this w))
                                                (ArgEvent m)) ms.
Proof.
  induction ms as [|m ms IH]; intros w d Hd Hs Hms.
  - cbn. rewrite app_nil_r. repeat split; assumption.
  - inversion Hms as [|? ? (Hk & Hpos & Ht) Hrest]; subst.
    change (run_moves cfg (m :: ms) w)
      with (run_moves cfg ms (exec (move cfg m) w)).
    rewrite (move_within cfg m w d Hd Hs Hk Hpos Ht).
    match goal with |- context [run_moves cfg ms ?x] => set (w1 := x) end.
    destruct (IH w1 d Hd Hs Hrest) as (H1 & H2 & H3 & H4 & H5 & H6).
    rewrite H1, H2, H3, H4, H5, H6. subst w1. cbn.
    rewrite <- app_assoc. repeat split.
Qed.

(** ** Opening a session *)

Lemma is_captured_add c n : is_captured (add_capture c n) (Some n) = true.
Proof.
  unfold is_captured, add_capture. apply bool_decide_eq_true_2.
  apply elem_of_union_l, elem_of_singleton. reflexivity.
Qed.

Lemma down_eq e w :
  throws_opt (finally (this w)) = false ->
  down e w =
    (Ok tt,
     {| this := with_pointerId (Some (Event.pointerId e))
                  (with_eDown (Some e) (reset_fields (this w)));
        captured := add_capture (released w) (Event.pointerId e);
        trace := (trace w ++ fire_opt Finally (finally (this w)) ArgNone
                    ++ release_part w) ++ [SetCapture (Event.pointerId e)] |}).
Proof.
  intros Ht. unfold down, bind at 1. rewrite reset_eq, Ht. reflexivity.
Qed.

(** Unless the cleanup of the previous session throws, [down] leaves a
    session open on its event, not yet dragging, with the pointer captured
    and all callback slots empty; this is the state the host registers its
    callbacks on. *)
Lemma down_opens_session e w :
  throws_opt (finally (this w)) = false ->
  fst (down e w) = Ok tt
  /\ eDown (this (exec (down e) w)) = Some e
  /\ dragStarted (this (exec (down e) w)) = false
  /\ pointerId (this (exec (down e) w)) = Some (Event.pointerId e)
  /\ is_captured (captured (exec (down e) w)) (Some (Event.pointerId e))
       = true
  /\ finally (this (exec (down e) w)) = None.
Proof.
  intros Ht. unfold exec. rewrite (down_eq e w Ht). cbn.
  split_and!; try reflexivity. apply is_captured_add.
Qed.

(** The two scenarios the specification spells out: the teleport, and a
    second press 100 ms after a completed click. *)
Example teleport_scenario :
  effects (up initial_config ev_up_far) tracking_world
    = [Fired OnDragStart cb_dragStart ArgThis;
       Fired OnDragEnd cb_dragEnd (ArgEvent ev_up_far);
       Fired Finally cb_cleanup ArgNone;
       ReleaseCapture 1].
Proof. vm_compute. reflexivity. Qed.

Example double_click_scenario :
  let u := Event.mk 1 0 0 10 0 105 in
  effects (up initial_config u) second_press_world
    = [Fired OnDoubleClick cb_double (ArgEvent u);
       Fired Finally cb_cleanup ArgNone;
       ReleaseCapture 1]
  /\ eLastDown (this (exec (up initial_config u) second_press_world)) = None.
Proof. split; vm_compute; reflexivity. Qed.

(** ** Static configuration *)

Lemma config_write_in_sync c a :
  maxClickDrift2 c = maxClickDrift c * maxClickDrift c ->
  maxClickDrift2 (config_write c a)
    = maxClickDrift (config_write c a) * maxClickDrift (config_write c a).
Proof. intros H. destruct a; cbn; [exact H | exact H | reflexivity]. Qed.

Lemma config_writes_in_sync l : forall c,
  maxClickDrift2 c = maxClickDrift c * maxClickDrift c ->
  maxClickDrift2 (config_writes c l)
    = maxClickDrift (config_writes c l) * maxClickDrift (config_writes c l).
Proof.
  unfold config_writes.
  induction l as [|a l IH]; intros c H; cbn; [exact H|].
  apply IH, config_write_in_sync, H.
Qed.

(** C7.  Assigning [v] to [maxClickDrift] makes the getter return [v] and the
    cached square [v * v]; and after any sequence of writes to the static
    configuration, starting from the initial values, the cached square is the
    square of [maxClickDrift]. *)
Theorem maxClickDrift2_in_sync :
  (forall c v,
     maxClickDrift (set_maxClickDrift v c) = v
     /\ maxClickDrift2 (set_maxClickDrift v c) = v * v)
  /\ (forall l : list ConfigWrite,
        let c := config_writes initial_config l in
        maxClickDrift2 c = maxClickDrift c * maxClickDrift c).
Proof.
  split.
  - intros c v. split; reflexivity.
  - intros l. apply config_writes_in_sync. reflexivity.
Qed.

(** ** Ignored [up] events *)

(** C5.  While a session is open, an [up] whose button differs from the
    button of [eDown] returns [false] and leaves the whole state as it was:
    the instance, the capture and the trace of effects. *)
Theorem up_other_button_ignored cfg w e d :
  eDown (this w) = Some d ->
  Event.button e <> Event.button d ->
  up cfg e w = (Ok false, w).
Proof.
  intros Hd Hb. unfold up, bind, gets, ret. rewrite Hd.
  apply Z.eqb_neq in Hb. rewrite Hb. reflexivity.
Qed.

Lemma up_other_button_ignored_witness :
  up initial_config ev_up_other tracking_world = (Ok false, tracking_world).
Proof.
  apply (up_other_button_ignored initial_config tracking_world ev_up_other
           ev_down).
  - vm_compute. reflexivity.
  - vm_compute. discriminate.
Defined.

(** C8.  With no session open ([eDown] is [null]) every [up] returns [false]
    and leaves the whole state as it was. *)
Theorem up_without_session_ignored cfg w e :
  eDown (this w) = None ->
  up cfg e w = (Ok false, w).
Proof.
  intros Hd. unfold up, bind, gets, ret. rewrite Hd. reflexivity.
Qed.

Lemma up_without_session_ignored_witness :
  up initial_config ev_up_near new_world = (Ok false, new_world).
Proof.
  apply (up_without_session_ignored initial_config new_world ev_up_near).
  reflexivity.
Defined.

(** ** The [finally] slot *)

(** C9.  The setter stores the new value whatever the held callback does, and
    [reset] leaves the slot empty; when the held callback throws, both calls
    do throw, and the slot is written all the same. *)
Theorem finally_stored_despite_throw w v f :
  finally (this w) = Some f ->
  cb_throws f = true ->
  (fst (set_finally v w) = Throw
   /\ finally (this (exec (set_finally v) w)) = v)
  /\ (fst (reset w) = Throw
      /\ finally (this (exec reset w)) = None).
Proof.
  intros Hf Ht. unfold exec.
  rewrite set_finally_eq, reset_eq, Hf. cbn. rewrite Ht. cbn.
  repeat split.
Qed.

Lemma finally_stored_despite_throw_witness :
  (fst (set_finally (Some cb_cleanup) failing_world) = Throw
   /\ finally (this (exec (set_finally (Some cb_cleanup)) failing_world))
        = Some cb_cleanup)
  /\ (fst (reset failing_world) = Throw
      /\ finally (this (exec reset failing_world)) = None).
Proof.
  apply (finally_stored_despite_throw failing_world (Some cb_cleanup)
           cb_failing).
  - reflexivity.
  - reflexivity.
Defined.

(** The slot is written on the normal exit as well. *)
Lemma set_finally_stores v w : finally (this (exec (set_finally v) w)) = v.
Proof. unfold exec. rewrite set_finally_eq. reflexivity. Qed.

Lemma reset_clears_finally w : finally (this (exec reset w)) = None.
Proof.
  unfold exec. rewrite reset_eq.
  destruct (throws_opt (finally (this w))); reflexivity.
Qed.

(** ** [reset] twice *)

Lemma reset_effects w :
  effects reset w =
    fire_opt Finally (finally (this w)) ArgNone
      ++ (if throws_opt (finally (this w)) then [] else release_part w).
Proof.
  apply effects_app. unfold exec. rewrite reset_eq.
  destruct (throws_opt (finally (this w))); cbn;
    rewrite ?app_nil_r; reflexivity.
Qed.

Lemma is_captured_drop c pid : is_captured (drop_capture c pid) pid = false.
Proof.
  destruct pid as [n|]; [|reflexivity].
  unfold is_captured, drop_capture.
  apply bool_decide_eq_false_2. intros H.
  apply elem_of_difference in H. destruct H as [_ H].
  apply H, elem_of_singleton. reflexivity.
Qed.

(** Once [reset] has run to its end, the pointer id is no longer captured. *)
Lemma release_part_after_reset w :
  throws_opt (finally (this w)) = false ->
  release_part (exec reset w) = [].
Proof.
  intros Ht. unfold exec. rewrite reset_eq, Ht. cbn.
  unfold release_part, released. cbn.
  destruct (is_captured (captured w) (pointerId (this w))) eqn:Hc.
  - rewrite is_captured_drop. reflexivity.
  - rewrite Hc. reflexivity.
Qed.

Lemma releases_fire s f a : releases (fire_opt s f a) = [].
Proof. destruct f; reflexivity. Qed.

Lemma releases_release_part w : (length (releases (release_part w)) <= 1)%nat.
Proof.
  unfold release_part, release_effect.
  destruct (is_captured _ _); cbn; [|lia].
  destruct (pointerId (this w)); cbn; lia.
Qed.

Lemma calls_finally_fire f a :
  calls Finally (fire_opt Finally f a) = fire_opt Finally f a.
Proof. destruct f; reflexivity. Qed.

Lemma calls_release_part s w : calls s (release_part w) = [].
Proof.
  unfold release_part, release_effect.
  destruct (is_captured _ _); [|reflexivity].
  destruct (pointerId (this w)); reflexivity.
Qed.

(** C6.  Two calls of [reset] in a row release the capture at most once and
    call the [finally] callback in the first call only.  When the first call
    ran to its end the second one has no effect at all; when the first call
    was cut short by a throwing [finally] callback it had not released, so
    the one release is that of the second call. *)
Theorem reset_twice w :
  let w1 := exec reset w in
  (length (releases (effects reset w ++ effects reset w1)) <= 1)%nat
  /\ calls Finally (effects reset w)
       = fire_opt Finally (finally (this w)) ArgNone
  /\ calls Finally (effects reset w1) = []
  /\ match fst (reset w) with
     | Ok _ => effects reset w1 = []
     | Throw => releases (effects reset w) = []
     end.
Proof.
  intros w1. subst w1.
  rewrite !reset_effects, reset_clears_finally. cbn [fire_opt throws_opt app].
  rewrite reset_eq.
  destruct (throws_opt (finally (this w))) eqn:Ht; cbn [fst].
  - rewrite !app_nil_r, calls_finally_fire, calls_release_part.
    rewrite releases_app, releases_fire. cbn [app].
    repeat split. apply releases_release_part.
  - rewrite (release_part_after_reset w Ht), !app_nil_r.
    rewrite calls_app, calls_finally_fire, calls_release_part, app_nil_r.
    rewrite releases_app, releases_fire. cbn [app].
    repeat split. apply releases_release_part.
Qed.

(** ** The double-click test *)

(** C2 (as amended).  The double-click test passes exactly when both
    down-events exist, the time between them is strictly positive and
    strictly below [doubleClickTime], and their squared distance is at most
    the square of three times [maxClickDrift]. *)
Theorem isDoubleClick_iff cfg p :
  isDoubleClick cfg p = true <->
  exists d l,
    eDown p = Some d /\ eLastDown p = Some l
    /\ 0 < Event.timeStamp d - Event.timeStamp l
    /\ Event.timeStamp d - Event.timeStamp l < doubleClickTime cfg
    /\ dist2 (Event.clientX d) (Event.clientY d)
             (Event.clientX l) (Event.clientY l)
         <= (3 * maxClickDrift cfg) ^ 2.
Proof.
  unfold isDoubleClick, hasSamePosition.
  destruct (eDown p) as [d|], (eLastDown p) as [l|]; cbn zeta.
  - rewrite !andb_true_iff, !Z.ltb_lt, Z.leb_le. split.
    + intros [[H1 H2] H3]. exists d, l. repeat split; assumption.
    + intros (d' & l' & Hd & Hl & H1 & H2 & H3).
      injection Hd as <-. injection Hl as <-. repeat split; assumption.
  - split; [discriminate|]. intros (d' & l' & _ & Hl & _). discriminate.
  - split; [discriminate|]. intros (d' & l' & Hd & _). discriminate.
  - split; [discriminate|]. intros (d' & l' & Hd & _). discriminate.
Qed.

Lemma isDoubleClick_iff_witness :
  isDoubleClick initial_config (this second_press_world) = true.
Proof.
  apply (proj2 (isDoubleClick_iff initial_config (this second_press_world))).
  exists ev_down_again, ev_down.
  split_and!; vm_compute; try reflexivity; discriminate.
Defined.

(** C2 as stated fails: two presses 10 pixels and 100 ms apart pass the test
    under the initial configuration, although their squared distance, 100,
    is more than [3 * maxClickDrift = 18]. *)
Lemma isDoubleClick_not_linear_bound :
  isDoubleClick initial_config (this second_press_world) = true
  /\ eDown (this second_press_world) = Some ev_down_again
  /\ eLastDown (this second_press_world) = Some ev_down
  /\ ~ dist2 (Event.clientX ev_down_again) (Event.clientY ev_down_again)
             (Event.clientX ev_down) (Event.clientY ev_down)
         <= 3 * maxClickDrift initial_config.
Proof.
  split_and!; try (vm_compute; reflexivity).
  vm_compute. intros H. apply H. reflexivity.
Qed.

(** ** Closing a session with [up] *)

Lemma calls_fire_other s s' f a : s' <> s -> calls s (fire_opt s' f a) = [].
Proof.
  intros H. destruct f; [|reflexivity]. cbn.
  rewrite bool_decide_eq_false_2; [reflexivity | exact H].
Qed.

Lemma calls_drags s f ms :
  s <> OnDrag ->
  calls s (flat_map (fun m => fire_opt OnDrag f (ArgEvent m)) ms) = [].
Proof.
  intros H. induction ms as [|m ms IH]; [reflexivity|]. cbn [flat_map].
  rewrite calls_app, IH, calls_fire_other; [reflexivity | congruence].
Qed.

Lemma calls_rest s rest :
  s <> Finally -> gesture_calls rest = [] -> calls s rest = [].
Proof. intros Hs Hg. rewrite <- (calls_gesture s rest Hs), Hg. reflexivity. Qed.

(** The trace of a click session: one [onDrag] call for each move, the call
    of the click branch, and then what [reset] does. *)
Lemma click_session_trace cfg w d ms u :
  eDown (this w) = Some d ->
  dragStarted (this w) = false ->
  Forall (fun m => keeps_button m d /\ within_drift cfg m d
                   /\ Event.timeStamp m - Event.timeStamp d <= bufferTime cfg)
         ms ->
  Event.button u = Event.button d ->
  within_drift cfg u d ->
  exists rest,
    gesture_calls rest = []
    /\ effects (up cfg u) (run_moves cfg ms w)
         = click_part cfg (this w) u ++ rest
    /\ session_effects cfg ms u w
         = flat_map (fun m => fire_opt OnDrag (onDrag (this w)) (ArgEvent m)) ms
             ++ click_part cfg (this w) u ++ rest.
Proof.
  intros Hd Hs Hms Hb Hpos.
  destruct (run_moves_within cfg ms w d Hd Hs Hms)
    as (Hd1 & Hs1 & Hl1 & Hc1 & Hdc1 & Ht1).
  destruct (up_trace cfg u (run_moves cfg ms w) d Hd1 Hb) as (rest & Hup & Hg).
  rewrite (completeClick_click cfg u _ d Hd1 Hs1 Hpos) in Hup.
  assert (Hcp : click_part cfg (this (run_moves cfg ms w)) u
                = click_part cfg (this w) u).
  { unfold click_part, isDoubleClick. rewrite Hd1, Hl1, Hc1, Hdc1, Hd.
    reflexivity. }
  rewrite Hcp in Hup. exists rest. split; [exact Hg|]. split.
  - apply effects_app. rewrite Hup, <- app_assoc. reflexivity.
  - unfold session_effects, session. rewrite Hup, Ht1, <- !app_assoc.
    apply drop_app_length.
Qed.

(** C1 (as amended).  A session closed by an [up] on the button that opened
    it, no further from [eDown] than the drift allows, whose moves all keep
    the button down and stay within the drift and the buffer time: neither
    [onDragStart] nor [onDragEnd] is called, the closing [up] calls no
    [onDrag], and of [onClick] / [onDoubleClick] it calls [onDoubleClick]
    once when that is set and the double-click test passes, and otherwise
    [onClick] once when that is set; so exactly one of the two is called
    whenever [onClick] is set. *)
Theorem click_session_calls cfg w d ms u :
  eDown (this w) = Some d ->
  dragStarted (this w) = false ->
  Forall (fun m => keeps_button m d /\ within_drift cfg m d
                   /\ Event.timeStamp m - Event.timeStamp d < bufferTime cfg)
         ms ->
  Event.button u = Event.button d ->
  within_drift cfg u d ->
  let tr := session_effects cfg ms u w in
  (calls OnDragStart tr = [] /\ calls OnDragEnd tr = [])
  /\ calls OnDrag (effects (up cfg u) (run_moves cfg ms w)) = []
  /\ match onDoubleClick (this w), isDoubleClick cfg (this w) with
     | Some f, true =>
         calls OnDoubleClick tr = [Fired OnDoubleClick f (ArgEvent u)]
         /\ calls OnClick tr = []
     | _, _ =>
         calls OnDoubleClick tr = []
         /\ calls OnClick tr = fire_opt OnClick (onClick (this w)) (ArgEvent u)
     end
  /\ (onClick (this w) <> None ->
      length (calls OnClick tr ++ calls OnDoubleClick tr) = 1%nat).
Proof.
  intros Hd Hs Hms Hb Hpos tr.
  assert (Hms' : Forall (fun m => keeps_button m d /\ within_drift cfg m d
                   /\ Event.timeStamp m - Event.timeStamp d <= bufferTime cfg)
                   ms).
  { eapply Forall_impl; [exact Hms|]. cbn. intros m (H1 & H2 & H3).
    repeat split; [exact H1 | exact H2 | lia]. }
  destruct (click_session_trace cfg w d ms u Hd Hs Hms' Hb Hpos)
    as (rest & Hg & Hup & Htr).
  fold tr in Htr.
  assert (Hcalls : forall s, s <> OnDrag -> s <> Finally ->
            calls s tr = calls s (click_part cfg (this w) u)).
  { intros s H1 H2. rewrite Htr, !calls_app, calls_drags by exact H1.
    rewrite (calls_rest s rest H2 Hg), app_nil_r. reflexivity. }
  rewrite !Hcalls by discriminate. rewrite Hup, calls_app.
  rewrite (calls_rest OnDrag rest) by (discriminate || exact Hg).
  unfold click_part.
  destruct (onDoubleClick (this w)) as [f|], (isDoubleClick cfg (this w));
    destruct (onClick (this w)) as [g|]; cbn;
    repeat split; try reflexivity; intros H; congruence.
Qed.

Lemma click_session_calls_witness :
  let w := tracking_world in
  let u := ev_up_near in
  let tr := session_effects initial_config [ev_move_near] u w in
  (calls OnDragStart tr = [] /\ calls OnDragEnd tr = [])
  /\ calls OnDrag (effects (up initial_config u)
                     (run_moves initial_config [ev_move_near] w)) = []
  /\ match onDoubleClick (this w), isDoubleClick initial_config (this w) with
     | Some f, true =>
         calls OnDoubleClick tr = [Fired OnDoubleClick f (ArgEvent u)]
         /\ calls OnClick tr = []
     | _, _ =>
         calls OnDoubleClick tr = []
         /\ calls OnClick tr = fire_opt OnClick (onClick (this w)) (ArgEvent u)
     end
  /\ (onClick (this w) <> None ->
      length (calls OnClick tr ++ calls OnDoubleClick tr) = 1%nat).
Proof.
  intros w u.
  apply (click_session_calls initial_config w ev_down [ev_move_near] u).
  - vm_compute. reflexivity.
  - vm_compute. reflexivity.
  - constructor; [|constructor].
    split_and!; vm_compute; try reflexivity; discriminate.
  - reflexivity.
  - vm_compute. discriminate.
Defined.

(** C1 as stated fails on two counts.  With all callbacks registered and one
    small move between [down] and [up], [onDrag] is called for the move; and
    when only [onDoubleClick] is registered and no earlier click is on
    record, the pair calls neither [onClick] nor [onDoubleClick]. *)
Lemma click_session_not_as_stated :
  (eDown (this tracking_world) = Some ev_down
   /\ keeps_button ev_move_near ev_down
   /\ within_drift initial_config ev_move_near ev_down
   /\ Event.timeStamp ev_move_near - Event.timeStamp ev_down
        < bufferTime initial_config
   /\ Event.button ev_up_near = Event.button ev_down
   /\ within_drift initial_config ev_up_near ev_down
   /\ Event.timeStamp ev_up_near - Event.timeStamp ev_down
        < bufferTime initial_config)
  /\ calls OnDrag (session_effects initial_config [ev_move_near] ev_up_near
                     tracking_world)
       = [Fired OnDrag cb_drag (ArgEvent ev_move_near)]
  /\ eDown (this double_only_world) = Some ev_down
  /\ calls OnClick (session_effects initial_config [] ev_up_near
                      double_only_world)
       ++ calls OnDoubleClick (session_effects initial_config [] ev_up_near
                                 double_only_world)
     = [].
Proof.
  split_and!; vm_compute; try reflexivity; discriminate.
Qed.

(** C3.  A session that no move has turned into a drag and whose closing
    [up] lies further from [eDown] than the drift allows (squared distance
    above the cached squared drift): provided [onDragStart], if set, returns
    normally, that one [up] calls [onDragStart] (if set) and then [onDragEnd]
    (if set), in this order, and no other gesture callback; in particular
    neither [onClick] nor [onDoubleClick]. *)
Theorem up_teleport cfg w e d :
  eDown (this w) = Some d ->
  dragStarted (this w) = false ->
  Event.button e = Event.button d ->
  maxClickDrift2 cfg
    < dist2 (Event.clientX e) (Event.clientY e)
            (Event.clientX d) (Event.clientY d) ->
  throws_opt (onDragStart (this w)) = false ->
  gesture_calls (effects (up cfg e) w)
    = fire_opt OnDragStart (onDragStart (this w)) ArgThis
        ++ fire_opt OnDragEnd (onDragEnd (this w)) (ArgEvent e)
  /\ calls OnClick (effects (up cfg e) w) = []
  /\ calls OnDoubleClick (effects (up cfg e) w) = [].
Proof.
  intros Hd Hs Hb Hfar Hq.
  assert (Hpos : ~ within_drift cfg e d) by (unfold within_drift; lia).
  destruct (up_trace cfg e w d Hd Hb) as (rest & Hup & Hg).
  rewrite (completeClick_teleport cfg e w d Hd Hs Hpos Hq) in Hup.
  rewrite <- app_assoc in Hup. apply effects_app in Hup.
  assert (Hgc : gesture_calls (effects (up cfg e) w) = teleport_part (this w) e).
  { rewrite Hup, gesture_calls_app, Hg, app_nil_r. unfold teleport_part.
    rewrite gesture_calls_app, !gesture_calls_fire by discriminate.
    reflexivity. }
  split; [exact Hgc|].
  split.
  - rewrite <- calls_gesture, Hgc by discriminate. unfold teleport_part.
    rewrite calls_app, !calls_fire_other by discriminate. reflexivity.
  - rewrite <- calls_gesture, Hgc by discriminate. unfold teleport_part.
    rewrite calls_app, !calls_fire_other by discriminate. reflexivity.
Qed.

Lemma up_teleport_witness :
  gesture_calls (effects (up initial_config ev_up_far) tracking_world)
    = fire_opt OnDragStart (onDragStart (this tracking_world)) ArgThis
        ++ fire_opt OnDragEnd (onDragEnd (this tracking_world))
                    (ArgEvent ev_up_far)
  /\ calls OnClick (effects (up initial_config ev_up_far) tracking_world) = []
  /\ calls OnDoubleClick (effects (up initial_config ev_up_far) tracking_world)
       = [].
Proof.
  apply (up_teleport initial_config tracking_world ev_up_far ev_down).
  - vm_compute. reflexivity.
  - vm_compute. reflexivity.
  - reflexivity.
  - vm_compute. reflexivity.
  - vm_compute. reflexivity.
Defined.

(** ** Assigning [finally] twice *)

Lemma set_finally_effects v w :
  effects (set_finally v) w = fire_opt Finally (finally (this w)) ArgNone.
Proof. apply effects_app. unfold exec. rewrite set_finally_eq. reflexivity. Qed.

Lemma invocations_fire_other s f g a :
  g <> Some f -> invocations f (fire_opt s g a) = 0%nat.
Proof.
  intros H. destruct g as [g|]; [|reflexivity]. unfold invocations. cbn.
  rewrite bool_decide_eq_false_2; [reflexivity | congruence].
Qed.

(** C4.  Starting from a slot that holds neither [f1] nor [f2], assign
    [finally = f1] and then [finally = f2].  The second assignment calls [f1]
    and nothing else, so over both assignments [f1] has run exactly once and
    [f2] not at all, and [f2] is what the slot now holds.  From there a move
    that keeps the session's button down neither calls nor replaces it; the
    next [reset] calls it. *)
Theorem finally_assigned_twice w f1 f2 :
  f1 <> f2 ->
  finally (this w) <> Some f1 ->
  finally (this w) <> Some f2 ->
  let w1 := exec (set_finally (Some f1)) w in
  let w2 := exec (set_finally (Some f2)) w1 in
  let both := effects (set_finally (Some f1)) w
                ++ effects (set_finally (Some f2)) w1 in
  effects (set_finally (Some f2)) w1 = [Fired Finally f1 ArgNone]
  /\ invocations f1 both = 1%nat
  /\ invocations f2 both = 0%nat
  /\ finally (this w2) = Some f2
  /\ (forall cfg e d,
        eDown (this w2) = Some d -> keeps_button e d ->
        calls Finally (effects (move cfg e) w2) = []
        /\ finally (this (exec (move cfg e) w2)) = Some f2)
  /\ calls Finally (effects reset w2) = [Fired Finally f2 ArgNone].
Proof.
  intros H12 H1 H2 w1 w2 both. subst both w2 w1.
  rewrite !set_finally_effects, !set_finally_stores. cbn [fire_opt].
  split; [reflexivity|].
  split.
  { unfold invocations. rewrite List.filter_app, length_app.
    fold (invocations f1 (fire_opt Finally (finally (this w)) ArgNone)).
    rewrite invocations_fire_other by exact H1. cbn.
    rewrite bool_decide_eq_true_2; reflexivity. }
  split.
  { unfold invocations. rewrite List.filter_app, length_app.
    fold (invocations f2 (fire_opt Finally (finally (this w)) ArgNone)).
    rewrite invocations_fire_other by exact H2. cbn.
    rewrite bool_decide_eq_false_2; [reflexivity | exact H12]. }
  split; [reflexivity|].
  split.
  - intros cfg e d Hd Hk.
    destruct (move_tracked cfg e _ d Hd Hk) as (Hf & _ & t & Ht & Hc).
    rewrite Hf, set_finally_stores. split; [|reflexivity].
    rewrite (effects_app _ _ _ Ht). exact Hc.
  - rewrite reset_effects, set_finally_stores, calls_app. cbn [fire_opt].
    destruct (throws_opt (Some f2)); [reflexivity|].
    rewrite calls_release_part. reflexivity.
Qed.

Lemma finally_assigned_twice_witness :
  let w1 := exec (set_finally (Some cb_cleanup')) tracking_world in
  effects (set_finally (Some cb_failing)) w1
    = [Fired Finally cb_cleanup' ArgNone].
Proof.
  intros w1.
  apply (finally_assigned_twice tracking_world cb_cleanup' cb_failing).
  - discriminate.
  - vm_compute. discriminate.
  - vm_compute. discriminate.
Defined.

(** ** A move that reports the button released *)

Lemma move_closing cfg e w d :
  eDown (this w) = Some d ->
  Event.buttons e <> 0 ->
  Z.land (Event.buttons e) (Event.buttons d) = 0 ->
  move cfg e w = (completeClick cfg e ;; reset) w.
Proof.
  intros Hd Hb Hk. apply Z.eqb_neq in Hb. apply Z.eqb_eq in Hk.
  unfold move, bind at 1, gets. rewrite Hd. cbn. rewrite Hb, Hk. reflexivity.
Qed.

(** C10 (as amended).  A move whose button mask shares no button with
    [eDown] is handed to [#completeClick] and followed by [reset].  The
    completion step stores it in [eUp] and leaves [eMove] alone, and the
    whole call makes no [onDrag] call and never stores the event in [eMove].
    What remains after the call depends on [clearEventsOnReset]: when it is
    [false], [eUp] is the event and [eMove] is unchanged; when it is [true]
    and the call returns normally, [eDown], [eMove] and [eUp] are all
    [null]. *)
Theorem move_button_released cfg w e d :
  eDown (this w) = Some d ->
  Event.buttons e <> 0 ->
  Z.land (Event.buttons e) (Event.buttons d) = 0 ->
  let w1 := exec (completeClick cfg e) w in
  let w' := exec (move cfg e) w in
  move cfg e w = (completeClick cfg e ;; reset) w
  /\ (eUp (this w1) = Some e /\ eMove (this w1) = eMove (this w))
  /\ calls OnDrag (effects (move cfg e) w) = []
  /\ (eMove (this w') = eMove (this w) \/ eMove (this w') = None)
  /\ (clearEventsOnReset (this w) = false ->
      eUp (this w') = Some e /\ eMove (this w') = eMove (this w))
  /\ (clearEventsOnReset (this w) = true ->
      fst (move cfg e w) = Ok tt ->
      eDown (this w') = None /\ eMove (this w') = None
      /\ eUp (this w') = None).
Proof.
  intros Hd Hb Hk w1 w'. subst w1 w'.
  pose proof (move_closing cfg e w d Hd Hb Hk) as Hmove.
  destruct (completeClick_events cfg e w d Hd)
    as (Hup & Hmv & Hclr & t & Ht & Hcalls).
  split; [exact Hmove|]. split; [split; assumption|].
  unfold effects, exec in *. rewrite Hmove. unfold bind.
  destruct (completeClick cfg e w) as [[[]|] w1]; cbn [snd fst] in *.
  - rewrite reset_eq.
    destruct (throws_opt (finally (this w1))); cbn [snd fst this trace].
    + rewrite Ht, <- app_assoc, drop_app_length, calls_app, Hcalls.
      rewrite calls_fire_other by discriminate.
      cbn. rewrite Hup, Hmv. split_and!; auto; discriminate.
    + rewrite Ht, <- app_assoc, drop_app_length, !calls_app, Hcalls.
      rewrite calls_fire_other, calls_release_part by discriminate.
      unfold reset_fields. cbn. rewrite Hclr, Hup, Hmv.
      destruct (clearEventsOnReset (this w)); split_and!; auto; discriminate.
  - rewrite Ht, drop_app_length, Hup, Hmv.
    split_and!; auto; discriminate.
Qed.

Lemma move_button_released_witness :
  let w := moved_world in
  let e := ev_move_other in
  eUp (this (exec (completeClick initial_config e) w)) = Some e
  /\ eMove (this (exec (completeClick initial_config e) w)) = eMove (this w).
Proof.
  intros w e.
  apply (move_button_released initial_config w e ev_down).
  - vm_compute. reflexivity.
  - vm_compute. discriminate.
  - vm_compute. reflexivity.
Defined.

(** C10 as stated fails: under the default [clearEventsOnReset], after a
    move that reports only the secondary button during a session opened with
    the primary one, [eUp] is not that event and the [eMove] recorded by the
    earlier move is gone. *)
Lemma move_button_released_not_as_stated :
  let w := moved_world in
  let e := ev_move_other in
  let w' := exec (move initial_config e) w in
  (eDown (this w) = Some ev_down
   /\ Event.buttons e <> 0
   /\ Z.land (Event.buttons e) (Event.buttons ev_down) = 0
   /\ eMove (this w) = Some ev_move_near)
  /\ eUp (this w') <> Some e
  /\ eMove (this w') <> eMove (this w).
Proof.
  split_and!; vm_compute; try reflexivity; discriminate.
Qed.

(** * Further properties of the methods *)

(** ** [move] outside a session, and with no button down *)

(** X1.  With no session on record ([eDown] is [null]) a move does nothing:
    it returns normally and the whole state is as before. *)
Theorem move_without_session_ignored cfg w e :
  eDown (this w) = None ->
  move cfg e w = (Ok tt, w).
Proof.
  intros Hd. unfold move, bind, gets, ret. rewrite Hd. reflexivity.
Qed.

Lemma move_without_session_ignored_witness :
  move initial_config ev_move_near new_world = (Ok tt, new_world).
Proof.
  apply (move_without_session_ignored initial_config new_world ev_move_near).
  reflexivity.
Defined.

(** X2.  During a session, a move that reports no button at all is exactly a
    [reset]: the event is stored neither in [eMove] nor in [eUp], and none of
    the five gesture callbacks is called. *)
Theorem move_no_buttons_resets cfg w e d :
  eDown (this w) = Some d ->
  Event.buttons e = 0 ->
  move cfg e w = reset w
  /\ gesture_calls (effects (move cfg e) w) = []
  /\ (eMove (this (exec (move cfg e) w)) = eMove (this w)
      \/ eMove (this (exec (move cfg e) w)) = None)
  /\ (eUp (this (exec (move cfg e) w)) = eUp (this w)
      \/ eUp (this (exec (move cfg e) w)) = None).
Proof.
  intros Hd Hb.
  assert (Hm : move cfg e w = reset w).
  { unfold move, bind, gets. rewrite Hd. cbn. rewrite Hb. reflexivity. }
  split; [exact Hm|].
  unfold effects, exec. rewrite Hm.
  destruct (reset_trace w) as (rest & Ht & Hg). unfold exec in Ht.
  rewrite Ht, drop_app_length. split; [exact Hg|].
  clear Ht Hg. rewrite reset_eq.
  destruct (throws_opt (finally (this w))); cbn.
  - split; left; reflexivity.
  - destruct (clearEventsOnReset (this w)); split; auto.
Qed.

Lemma move_no_buttons_resets_witness :
  move initial_config ev_move_released tracking_world = reset tracking_world.
Proof.
  apply (move_no_buttons_resets initial_config tracking_world
           ev_move_released ev_down).
  - vm_compute. reflexivity.
  - reflexivity.
Defined.

(** ** What [reset] leaves behind *)

(** X3.  A [reset] whose [finally] callback (if any) returns normally clears
    the six callback slots and the three flags, keeps [eLastDown],
    [pointerId] and [clearEventsOnReset], clears the three events exactly
    when [clearEventsOnReset] is set, and leaves the instance's pointer id
    uncaptured while the capture of every other pointer id is as before. *)
Theorem reset_clears_session w :
  throws_opt (finally (this w)) = false ->
  let p := this w in
  let p' := this (exec reset w) in
  fst (reset w) = Ok tt
  /\ (onClick p' = None /\ onDoubleClick p' = None /\ onDragStart p' = None
      /\ onDrag p' = None /\ onDragEnd p' = None /\ finally p' = None)
  /\ (isDown p' = false /\ isDouble p' = false /\ dragStarted p' = false)
  /\ (eLastDown p' = eLastDown p /\ pointerId p' = pointerId p
      /\ clearEventsOnReset p' = clearEventsOnReset p)
  /\ (if clearEventsOnReset p
      then eDown p' = None /\ eMove p' = None /\ eUp p' = None
      else eDown p' = eDown p /\ eMove p' = eMove p /\ eUp p' = eUp p)
  /\ is_captured (captured (exec reset w)) (pointerId p') = false
  /\ (forall n, pointerId p <> Some n ->
        (n ∈ captured (exec reset w) <-> n ∈ captured w)).
Proof.
  intros Ht p p'. subst p p'. unfold exec. rewrite reset_eq, Ht. cbn.
  split_and!; try reflexivity.
  - destruct (clearEventsOnReset (this w)); split_and!; reflexivity.
  - unfold released.
    destruct (is_captured (captured w) (pointerId (this w))) eqn:Hc.
    + apply is_captured_drop.
    + exact Hc.
  - intros n Hn. unfold released, drop_capture.
    destruct (is_captured (captured w) (pointerId (this w))); [|reflexivity].
    destruct (pointerId (this w)) as [m|]; [|reflexivity].
    rewrite elem_of_difference, elem_of_singleton. split.
    + intros [H _]. exact H.
    + intros H. split; [exact H|]. intros ->. apply Hn. reflexivity.
Qed.

Lemma reset_clears_session_witness :
  fst (reset tracking_world) = Ok tt
  /\ dragStarted (this (exec reset dragging_world)) = false.
Proof.
  split.
  - refine (proj1 (reset_clears_session tracking_world _)).
    vm_compute. reflexivity.
  - refine (proj2 (proj2 (proj1 (proj2 (proj2
              (reset_clears_session dragging_world _)))))).
    vm_compute. reflexivity.
Defined.

Lemma reset_fields_idem p : reset_fields (reset_fields p) = reset_fields p.
Proof.
  unfold reset_fields. cbn. destruct (clearEventsOnReset p); reflexivity.
Qed.

Lemma reset_after_reset w :
  fst (reset w) = Ok tt ->
  reset (exec reset w) = (Ok tt, exec reset w).
Proof.
  intros Hok.
  assert (Ht : throws_opt (finally (this w)) = false).
  { rewrite reset_eq in Hok.
    destruct (throws_opt (finally (this w))); [discriminate | reflexivity]. }
  pose proof (release_part_after_reset w Ht) as Hrel.
  unfold exec in *. rewrite (reset_eq w), Ht in *. cbn [snd] in *.
  rewrite reset_eq. cbn [this finally reset_fields throws_opt fire_opt].
  rewrite Hrel, !app_nil_r, reset_fields_idem.
  unfold released at 1. cbn [this captured pointerId reset_fields].
  assert (Hc : is_captured (released w) (pointerId (this w)) = false).
  { unfold released.
    destruct (is_captured (captured w) (pointerId (this w))) eqn:Hc.
    - apply is_captured_drop.
    - exact Hc. }
  rewrite Hc. cbn [app]. rewrite ?app_nil_r. reflexivity.
Qed.

(** X4.  [reset] is idempotent: after a [reset] that returned normally, a
    second one returns normally and changes nothing: no field, no capture, no
    effect. *)
Theorem reset_idempotent w :
  fst (reset w) = Ok tt ->
  reset (exec reset w) = (Ok tt, exec reset w)
  /\ effects reset (exec reset w) = [].
Proof.
  intros Hok. pose proof (reset_after_reset w Hok) as H.
  split; [exact H|].
  unfold effects, exec at 2. rewrite H. cbn [snd].
  rewrite drop_ge; [reflexivity | lia].
Qed.

Lemma reset_idempotent_witness :
  reset (exec reset dragging_world) = (Ok tt, exec reset dragging_world).
Proof.
  refine (proj1 (reset_idempotent dragging_world _)).
  vm_compute. reflexivity.
Defined.

(** ** [down] *)

Lemma bind_reset_twice {A} (k : M A) w :
  (reset ;; reset ;; k) w = (reset ;; k) w.
Proof.
  unfold bind at 1 3.
  destruct (reset w) as [[[]|] w1] eqn:Hr; [|reflexivity].
  assert (Hok : fst (reset w) = Ok tt) by (rewrite Hr; reflexivity).
  pose proof (reset_after_reset w Hok) as Hid.
  unfold exec in Hid. rewrite Hr in Hid. cbn [snd] in Hid.
  unfold bind. rewrite Hid. reflexivity.
Qed.

(** X5.  Calling [reset] before [down] changes nothing: [down] already
    starts with a [reset], and the second of two consecutive resets is a
    no-op.  This holds for the result, the state and the effects alike, also
    when the [finally] callback throws. *)
Theorem reset_then_down e w :
  (reset ;; down e) w = down e w.
Proof. unfold down. apply bind_reset_twice. Qed.

(** X6.  When the [finally] callback of the previous session (if any)
    returns normally, [down] returns normally, calls that callback, releases
    a capture still held and captures the pointer of the event, in this
    order.  Afterwards the event is [eDown], its pointer id is [pointerId]
    and is captured, no drag has started, all six callback slots are empty,
    and [eLastDown] is what it was. *)
Theorem down_restarts_tracking e w :
  throws_opt (finally (this w)) = false ->
  let p' := this (exec (down e) w) in
  fst (down e w) = Ok tt
  /\ effects (down e) w
       = fire_opt Finally (finally (this w)) ArgNone
           ++ release_part w ++ [SetCapture (Event.pointerId e)]
  /\ (eDown p' = Some e /\ pointerId p' = Some (Event.pointerId e)
      /\ dragStarted p' = false /\ eLastDown p' = eLastDown (this w))
  /\ (onClick p' = None /\ onDoubleClick p' = None /\ onDragStart p' = None
      /\ onDrag p' = None /\ onDragEnd p' = None /\ finally p' = None)
  /\ is_captured (captured (exec (down e) w)) (pointerId p') = true.
Proof.
  intros Ht p'. subst p'.
  assert (He : effects (down e) w
               = fire_opt Finally (finally (this w)) ArgNone
                   ++ release_part w ++ [SetCapture (Event.pointerId e)]).
  { apply effects_app. unfold exec. rewrite (down_eq e w Ht). cbn.
    rewrite <- !app_assoc. reflexivity. }
  rewrite He. unfold exec. rewrite (down_eq e w Ht). cbn.
  split_and!; try reflexivity. apply is_captured_add.
Qed.

Lemma down_restarts_tracking_witness :
  effects (down ev_down_other_pointer) dragging_world
    = fire_opt Finally (finally (this dragging_world)) ArgNone
        ++ release_part dragging_world
        ++ [SetCapture (Event.pointerId ev_down_other_pointer)].
Proof.
  refine (proj1 (proj2 (down_restarts_tracking ev_down_other_pointer
                          dragging_world _))).
  vm_compute. reflexivity.
Defined.

(** X7.  When the held [finally] callback throws, [reset] stops right after
    it: the slot is emptied and nothing else changes, so the callbacks, the
    flags, the events and the capture stay.  [down] then fails the same way
    and opens no session; since the slot is now empty, the next [down]
    goes through. *)
Theorem throwing_finally_aborts w f e :
  finally (this w) = Some f ->
  cb_throws f = true ->
  reset w
    = (Throw, {| this := with_finally None (this w); captured := captured w;
                 trace := trace w ++ [Fired Finally f ArgNone] |})
  /\ down e w = reset w
  /\ fst (down e (exec (down e) w)) = Ok tt.
Proof.
  intros Hf Ht.
  assert (Hr : reset w
    = (Throw, {| this := with_finally None (this w); captured := captured w;
                 trace := trace w ++ [Fired Finally f ArgNone] |})).
  { rewrite reset_eq, Hf. cbn. rewrite Ht. reflexivity. }
  assert (Hd : down e w = reset w).
  { unfold down, bind at 1. rewrite Hr. reflexivity. }
  split; [exact Hr|]. split; [exact Hd|].
  unfold exec. rewrite Hd, Hr. cbn [snd].
  rewrite down_eq; reflexivity.
Qed.

Lemma throwing_finally_aborts_witness :
  down ev_down_again failing_session_world = reset failing_session_world.
Proof.
  refine (proj1 (proj2 (throwing_finally_aborts failing_session_world
                          cb_failing ev_down_again _ _))).
  - vm_compute. reflexivity.
  - reflexivity.
Defined.

(** ** Dragging *)

Lemma move_starts_drag_eq cfg w e d :
  eDown (this w) = Some d ->
  dragStarted (this w) = false ->
  keeps_button e d ->
  bufferTime cfg < Event.timeStamp e - Event.timeStamp d
    \/ ~ within_drift cfg e d ->
  move cfg e w =
    (if throws_opt (onDrag (this w)) || throws_opt (onDragStart (this w))
     then Throw else Ok tt,
     {| this := if throws_opt (onDrag (this w)) then with_eMove (Some e) (this w)
                else if throws_opt (onDragStart (this w))
                then with_dragStarted true (with_eMove (Some e) (this w))
                else with_onDragStart None
                       (with_dragStarted true (with_eMove (Some e) (this w)));
        captured := captured w;
        trace := trace w ++ fire_opt OnDrag (onDrag (this w)) (ArgEvent e)
                   ++ (if throws_opt (onDrag (this w)) then []
                       else fire_opt OnDragStart (onDragStart (this w))
                                     ArgThis) |}).
Proof.
  intros Hd Hs Hk Hfar.
  pose proof (keeps_button_pressed _ _ Hk) as Hb.
  apply Z.eqb_neq in Hb. apply Z.eqb_neq in Hk.
  assert (Hcond : (bufferTime cfg <? Event.timeStamp e - Event.timeStamp d)
                  || negb (hasSamePosition e d (maxClickDrift2 cfg)) = true).
  { apply orb_true_iff. destruct Hfar as [H|H].
    - left. apply Z.ltb_lt. exact H.
    - right. apply hasSamePosition_false in H. rewrite H. reflexivity. }
  unfold move, bind, gets, assign, call_opt, call, emit, ret.
  rewrite Hd. cbn. rewrite Hb, Hk. cbn.
  destruct (onDrag (this w)) as [f|]; cbn; try destruct (cb_throws f); cbn;
    rewrite ?Hs, ?Hcond, ?setDragStarted_eq; cbn;
    try (destruct (onDragStart (this w)) as [g|]; cbn;
         try destruct (cb_throws g); cbn);
    rewrite ?app_nil_r, <- ?app_assoc; reflexivity.
Qed.

(** X8.  The first move of a session that keeps the button down and is later
    than the buffer time or further than the drift calls [onDrag] first and
    then starts the drag: [dragStarted] is set and [onDragStart] is called
    with the instance; when that returns normally its slot is emptied.  The
    drag is started only if [onDrag] returned normally: a throwing [onDrag]
    ends the call before the thresholds are looked at. *)
Theorem move_starts_drag cfg w e d :
  eDown (this w) = Some d ->
  dragStarted (this w) = false ->
  keeps_button e d ->
  bufferTime cfg < Event.timeStamp e - Event.timeStamp d
    \/ ~ within_drift cfg e d ->
  let w' := exec (move cfg e) w in
  effects (move cfg e) w
    = fire_opt OnDrag (onDrag (this w)) (ArgEvent e)
        ++ (if throws_opt (onDrag (this w)) then []
            else fire_opt OnDragStart (onDragStart (this w)) ArgThis)
  /\ dragStarted (this w') = negb (throws_opt (onDrag (this w)))
  /\ eMove (this w') = Some e
  /\ onDragStart (this w')
       = (if throws_opt (onDrag (this w)) || throws_opt (onDragStart (this w))
          then onDragStart (this w) else None).
Proof.
  intros Hd Hs Hk Hfar w'. subst w'.
  pose proof (move_starts_drag_eq cfg w e d Hd Hs Hk Hfar) as Hm.
  split.
  { apply effects_app. unfold exec. rewrite Hm. reflexivity. }
  unfold exec. rewrite Hm. cbn.
  destruct (throws_opt (onDrag (this w))), (throws_opt (onDragStart (this w)));
    cbn; split_and!; try reflexivity; exact Hs.
Qed.

Lemma move_starts_drag_witness :
  dragStarted (this (exec (move initial_config ev_move_late) tracking_world))
    = negb (throws_opt (onDrag (this tracking_world))).
Proof.
  refine (proj1 (proj2 (move_starts_drag initial_config tracking_world
                          ev_move_late ev_down _ _ _ _))).
  - vm_compute. reflexivity.
  - vm_compute. reflexivity.
  - vm_compute. discriminate.
  - left. vm_compute. reflexivity.
Defined.

Lemma move_dragging cfg w e d :
  eDown (this w) = Some d ->
  dragStarted (this w) = true ->
  keeps_button e d ->
  exec (move cfg e) w =
    {| this := with_eMove (Some e) (this w); captured := captured w;
       trace := trace w ++ fire_opt OnDrag (onDrag (this w)) (ArgEvent e) |}.
Proof.
  intros Hd Hs Hk.
  pose proof (keeps_button_pressed _ _ Hk) as Hb.
  apply Z.eqb_neq in Hb. apply Z.eqb_neq in Hk.
  unfold exec, move, bind, gets, assign, call_opt, call, emit, ret.
  rewrite Hd. cbn. rewrite Hb, Hk. cbn.
  destruct (onDrag (this w)) as [f|]; cbn; try destruct (cb_throws f); cbn;
    rewrite ?Hs, ?app_nil_r; reflexivity.
Qed.

(** X9.  Once the drag has started, a move that keeps the button down only
    becomes [eMove] and is passed to [onDrag], wherever and whenever it
    happens: [dragStarted] stays set and [onDragStart] is not called again,
    even if it is still (or again) registered. *)
Theorem move_while_dragging cfg w e d :
  eDown (this w) = Some d ->
  dragStarted (this w) = true ->
  keeps_button e d ->
  exec (move cfg e) w =
    {| this := with_eMove (Some e) (this w); captured := captured w;
       trace := trace w ++ fire_opt OnDrag (onDrag (this w)) (ArgEvent e) |}
  /\ dragStarted (this (exec (move cfg e) w)) = true
  /\ calls OnDragStart (effects (move cfg e) w) = [].
Proof.
  intros Hd Hs Hk. pose proof (move_dragging cfg w e d Hd Hs Hk) as Hm.
  split; [exact Hm|]. split.
  - rewrite Hm. exact Hs.
  - unfold effects. rewrite Hm. cbn. rewrite drop_app_length.
    apply calls_fire_other. discriminate.
Qed.

Lemma move_while_dragging_witness :
  dragStarted (this (exec (move initial_config ev_move_near) dragging_world))
    = true.
Proof.
  refine (proj1 (proj2 (move_while_dragging initial_config dragging_world
                          ev_move_near ev_down _ _ _))).
  - vm_compute. reflexivity.
  - vm_compute. reflexivity.
  - vm_compute. discriminate.
Defined.

Lemma completeClick_dragging cfg e w d :
  eDown (this w) = Some d ->
  dragStarted (this w) = true ->
  completeClick cfg e w =
    (if throws_opt (onDragEnd (this w)) then Throw else Ok tt,
     {| this := with_eUp (Some e) (this w); captured := captured w;
        trace := trace w ++ fire_opt OnDragEnd (onDragEnd (this w))
                                     (ArgEvent e) |}).
Proof.
  intros Hd Hs.
  unfold completeClick, bind, gets, assign, call_opt, call, emit, ret.
  rewrite Hd. cbn. rewrite Hs. cbn.
  destruct (onDragEnd (this w)) as [g|]; cbn; try destruct (cb_throws g);
    rewrite ?app_nil_r; reflexivity.
Qed.

Lemma up_eq cfg e w d :
  eDown (this w) = Some d ->
  Event.button e = Event.button d ->
  up cfg e w =
    match completeClick cfg e w with
    | (Ok _, w1) =>
        match reset w1 with
        | (Ok _, w2) => (Ok (negb (dragStarted (this w1))), w2)
        | (Throw, w2) => (Throw, w2)
        end
    | (Throw, w1) => (Throw, w1)
    end.
Proof.
  intros Hd Hb. unfold up, bind at 1, gets. rewrite Hd. cbn.
  rewrite Hb, Z.eqb_refl. cbn. unfold bind, gets, ret.
  destruct (completeClick cfg e w) as [[[]|] w1]; [|reflexivity].
  destruct (reset w1) as [[[]|] w2]; reflexivity.
Qed.

(** X10.  An [up] on the session's button after the drag has started calls
    [onDragEnd] (if set) with the event and no other gesture callback,
    however close to [eDown] the pointer is released; [eLastDown] is left as
    it was, so a drag never becomes the first half of a double click; and
    when [onDragEnd] and [finally] return normally the call returns
    [false]. *)
Theorem up_after_drag cfg w e d :
  eDown (this w) = Some d ->
  dragStarted (this w) = true ->
  Event.button e = Event.button d ->
  gesture_calls (effects (up cfg e) w)
    = fire_opt OnDragEnd (onDragEnd (this w)) (ArgEvent e)
  /\ eLastDown (this (exec (up cfg e) w)) = eLastDown (this w)
  /\ (throws_opt (onDragEnd (this w)) = false ->
      throws_opt (finally (this w)) = false ->
      fst (up cfg e w) = Ok false).
Proof.
  intros Hd Hs Hb.
  destruct (up_trace cfg e w d Hd Hb) as (rest & Hup & Hg).
  pose proof (completeClick_dragging cfg e w d Hd Hs) as Hcc.
  unfold exec in Hup. rewrite Hcc in Hup. cbn [snd trace] in Hup.
  rewrite <- app_assoc in Hup. apply effects_app in Hup.
  split.
  { rewrite Hup, gesture_calls_app, Hg, app_nil_r.
    apply gesture_calls_fire. discriminate. }
  unfold exec. rewrite (up_eq cfg e w d Hd Hb), Hcc.
  destruct (throws_opt (onDragEnd (this w))) eqn:He.
  - cbn. split; [reflexivity | discriminate].
  - rewrite reset_eq. cbn.
    destruct (throws_opt (finally (this w))) eqn:Hf; cbn.
    + split; [reflexivity | discriminate].
    + rewrite Hs. split; reflexivity.
Qed.

Lemma up_after_drag_witness :
  gesture_calls (effects (up initial_config ev_up_near) dragging_world)
    = fire_opt OnDragEnd (onDragEnd (this dragging_world))
               (ArgEvent ev_up_near).
Proof.
  refine (proj1 (up_after_drag initial_config dragging_world ev_up_near
                   ev_down _ _ _)).
  - vm_compute. reflexivity.
  - vm_compute. reflexivity.
  - reflexivity.
Defined.

(** ** Closing a session *)

(** [#completeClick] never touches the pointer id, the capture, [eDown] or
    [clearEventsOnReset]. *)
Lemma completeClick_frame cfg e w :
  pointerId (this (exec (completeClick cfg e) w)) = pointerId (this w)
  /\ captured (exec (completeClick cfg e) w) = captured w
  /\ eDown (this (exec (completeClick cfg e) w)) = eDown (this w)
  /\ clearEventsOnReset (this (exec (completeClick cfg e) w))
       = clearEventsOnReset (this w).
Proof.
  unfold exec, completeClick, bind, gets, assign.
  destruct (eDown (this w)) as [d|] eqn:Hd; cbn; [|rewrite Hd; repeat split].
  destruct (dragStarted (this w)); cbn.
  - unfold call_opt, call, bind, emit, ret.
    destruct (onDragEnd (this w)) as [g|]; cbn;
      try destruct (cb_throws g); cbn; rewrite Hd; repeat split.
  - destruct (hasSamePosition e d (maxClickDrift2 cfg)); cbn.
    + unfold call_opt, call, bind, emit, ret.
      destruct (onDoubleClick (this w)) as [f|];
        destruct (isDoubleClick cfg (with_eUp (Some e) (this w))); cbn;
        try destruct (cb_throws f); cbn;
        try (destruct (onClick (this w)) as [g|]; cbn;
             try destruct (cb_throws g); cbn); rewrite Hd; repeat split.
    + rewrite setDragStarted_eq. cbn.
      unfold call_opt, call, bind, emit, ret.
      destruct (onDragStart (this w)) as [f|]; cbn;
        try destruct (cb_throws f); cbn;
        destruct (onDragEnd (this w)) as [g|]; cbn;
        try destruct (cb_throws g); cbn; rewrite Hd; repeat split.
Qed.

Lemma completeClick_click_eq cfg e w d :
  eDown (this w) = Some d ->
  dragStarted (this w) = false ->
  hasSamePosition e d (maxClickDrift2 cfg) = true ->
  throws_opt (onClick (this w)) = false ->
  throws_opt (onDoubleClick (this w)) = false ->
  completeClick cfg e w =
    (Ok tt,
     {| this := with_eLastDown
                  (match onDoubleClick (this w), isDoubleClick cfg (this w) with
                   | Some _, true => None
                   | _, _ => Some d
                   end) (with_eUp (Some e) (this w));
        captured := captured w;
        trace := trace w ++ click_part cfg (this w) e |}).
Proof.
  intros Hd Hs Hpos Hc Hdc.
  unfold completeClick, click_part, bind, gets, assign, call_opt, call,
    emit, ret.
  rewrite Hd. cbn. rewrite Hs, Hpos. cbn.
  unfold isDoubleClick at 1. cbn. fold (isDoubleClick cfg (this w)).
  destruct (onDoubleClick (this w)) as [f|], (isDoubleClick cfg (this w));
    cbn in *; rewrite ?Hdc; cbn; try reflexivity;
    destruct (onClick (this w)) as [g|]; cbn in *; rewrite ?Hc, ?app_nil_r;
    reflexivity.
Qed.

Lemma completeClick_teleport_eq cfg e w d :
  eDown (this w) = Some d ->
  dragStarted (this w) = false ->
  hasSamePosition e d (maxClickDrift2 cfg) = false ->
  throws_opt (onDragStart (this w)) = false ->
  completeClick cfg e w =
    (if throws_opt (onDragEnd (this w)) then Throw else Ok tt,
     {| this := with_onDragStart None
                  (with_dragStarted true (with_eUp (Some e) (this w)));
        captured := captured w;
        trace := trace w ++ teleport_part (this w) e |}).
Proof.
  intros Hd Hs Hpos Hq.
  unfold completeClick, teleport_part, bind, gets, assign.
  rewrite Hd. cbn. rewrite Hs, Hpos. cbn.
  rewrite setDragStarted_eq. cbn. rewrite Hq. cbn.
  unfold call_opt, call, bind, emit, ret.
  destruct (onDragEnd (this w)) as [g|]; cbn; rewrite ?app_nil_r;
    try destruct (cb_throws g); cbn; rewrite <- ?app_assoc; reflexivity.
Qed.

(** X11.  When the registered callbacks return normally, an [up] on the
    session's button returns [true] exactly when the session was a plain
    click: no drag had started and the release is within the drift of
    [eDown].  Timing plays no part in it. *)
Theorem up_returns_plain_click cfg w e d :
  eDown (this w) = Some d ->
  Event.button e = Event.button d ->
  quiet (this w) ->
  fst (up cfg e w)
    = Ok (negb (dragStarted (this w))
          && hasSamePosition e d (maxClickDrift2 cfg)).
Proof.
  intros Hd Hb (Hds & _ & Hde & Hc & Hdc & Hf).
  rewrite (up_eq cfg e w d Hd Hb).
  destruct (dragStarted (this w)) eqn:Hs.
  - rewrite (completeClick_dragging cfg e w d Hd Hs), Hde, reset_eq. cbn.
    rewrite Hf, Hs. reflexivity.
  - destruct (hasSamePosition e d (maxClickDrift2 cfg)) eqn:Hpos.
    + rewrite (completeClick_click_eq cfg e w d Hd Hs Hpos Hc Hdc), reset_eq.
      cbn. rewrite Hf. cbn. rewrite Hs. reflexivity.
    + rewrite (completeClick_teleport_eq cfg e w d Hd Hs Hpos Hds), Hde,
        reset_eq. cbn. rewrite Hf. reflexivity.
Qed.

Lemma up_returns_plain_click_witness :
  fst (up initial_config ev_up_far tracking_world)
    = Ok (negb (dragStarted (this tracking_world))
          && hasSamePosition ev_up_far ev_down
               (maxClickDrift2 initial_config)).
Proof.
  apply (up_returns_plain_click initial_config tracking_world ev_up_far
           ev_down).
  - vm_compute. reflexivity.
  - reflexivity.
  - vm_compute. split_and!; reflexivity.
Defined.

(** X12.  A click that completes (no drag, release within the drift, on the
    session's button, [onClick] and [onDoubleClick] returning normally)
    leaves in [eLastDown] the [eDown] of the session when it was a single
    click, and nothing when it was reported as a double click.  The [reset]
    that ends [up] keeps that value. *)
Theorem click_records_last_down cfg w e d :
  eDown (this w) = Some d ->
  dragStarted (this w) = false ->
  Event.button e = Event.button d ->
  within_drift cfg e d ->
  throws_opt (onClick (this w)) = false ->
  throws_opt (onDoubleClick (this w)) = false ->
  eLastDown (this (exec (up cfg e) w))
    = match onDoubleClick (this w), isDoubleClick cfg (this w) with
      | Some _, true => None
      | _, _ => Some d
      end.
Proof.
  intros Hd Hs Hb Hpos Hc Hdc. apply hasSamePosition_true in Hpos.
  unfold exec.
  rewrite (up_eq cfg e w d Hd Hb),
    (completeClick_click_eq cfg e w d Hd Hs Hpos Hc Hdc), reset_eq.
  cbn. destruct (throws_opt (finally (this w))); reflexivity.
Qed.

Lemma click_records_last_down_witness :
  eLastDown (this (exec (up initial_config ev_up_near) tracking_world))
    = match onDoubleClick (this tracking_world),
            isDoubleClick initial_config (this tracking_world) with
      | Some _, true => None
      | _, _ => Some ev_down
      end.
Proof.
  apply (click_records_last_down initial_config tracking_world ev_up_near
           ev_down).
  - vm_compute. reflexivity.
  - vm_compute. reflexivity.
  - reflexivity.
  - vm_compute. discriminate.
  - vm_compute. reflexivity.
  - vm_compute. reflexivity.
Defined.

(** X13.  The double-click test fails whenever the press on record in
    [eLastDown] is not strictly earlier than [eDown]; in particular when
    either is missing and when both are the same event, so a press is never
    paired with itself. *)
Theorem isDoubleClick_needs_earlier_press cfg p :
  (forall d l, eDown p = Some d -> eLastDown p = Some l ->
               Event.timeStamp d <= Event.timeStamp l) ->
  isDoubleClick cfg p = false.
Proof.
  intros H. unfold isDoubleClick.
  destruct (eDown p) as [d|]; [|reflexivity].
  destruct (eLastDown p) as [l|]; [|reflexivity].
  specialize (H d l eq_refl eq_refl). cbn zeta.
  replace (0 <? Event.timeStamp d - Event.timeStamp l) with false.
  - reflexivity.
  - symmetry. apply Z.ltb_ge. lia.
Qed.

Lemma isDoubleClick_needs_earlier_press_witness :
  isDoubleClick initial_config
    (with_eLastDown (Some ev_down) (this tracking_world)) = false.
Proof.
  apply (isDoubleClick_needs_earlier_press initial_config).
  intros d l Hd Hl. vm_compute in Hd, Hl.
  injection Hd as <-. injection Hl as <-. vm_compute. discriminate.
Defined.

(** X14.  No triple click: once an [up] has reported a double click (the
    [onDoubleClick] callback returning normally), [eLastDown] is empty, it
    stays empty through the next [down], and so the session that [down]
    opens fails the double-click test whatever its timing and position. *)
Theorem no_triple_click cfg w e d f e2 :
  eDown (this w) = Some d ->
  dragStarted (this w) = false ->
  Event.button e = Event.button d ->
  within_drift cfg e d ->
  onDoubleClick (this w) = Some f ->
  cb_throws f = false ->
  isDoubleClick cfg (this w) = true ->
  let w1 := exec (up cfg e) w in
  let w2 := exec (down e2) w1 in
  calls OnDoubleClick (effects (up cfg e) w)
    = [Fired OnDoubleClick f (ArgEvent e)]
  /\ eLastDown (this w1) = None
  /\ eLastDown (this w2) = None
  /\ forall cfg', isDoubleClick cfg' (this w2) = false.
Proof.
  intros Hd Hs Hb Hpos Hf Hq Hdbl w1 w2. subst w2 w1.
  pose proof Hpos as Hpos'. apply hasSamePosition_true in Hpos'.
  assert (Hcc : completeClick cfg e w =
    (Ok tt, {| this := with_eLastDown None (with_eUp (Some e) (this w));
               captured := captured w;
               trace := trace w ++ [Fired OnDoubleClick f (ArgEvent e)] |})).
  { unfold completeClick, bind, gets, assign, call_opt, call, emit, ret.
    rewrite Hd. cbn. rewrite Hs, Hpos'. cbn. rewrite Hf.
    unfold isDoubleClick at 1. cbn. fold (isDoubleClick cfg (this w)).
    rewrite Hdbl. cbn. rewrite Hq. reflexivity. }
  assert (H1 : eLastDown (this (exec (up cfg e) w)) = None).
  { unfold exec. rewrite (up_eq cfg e w d Hd Hb), Hcc, reset_eq. cbn.
    destruct (throws_opt (finally (this w))); reflexivity. }
  assert (H2 : forall w0 : World,
            eLastDown (this (exec (down e2) w0)) = eLastDown (this w0)).
  { intros w0. unfold exec, down, bind at 1. rewrite reset_eq.
    destruct (throws_opt (finally (this w0))); reflexivity. }
  split.
  { destruct (up_trace cfg e w d Hd Hb) as (rest & Hup & Hg).
    unfold exec in Hup at 2. rewrite Hcc in Hup. cbn [snd trace] in Hup.
    rewrite <- app_assoc in Hup. apply effects_app in Hup.
    rewrite Hup, calls_app, (calls_rest OnDoubleClick rest) by
      (discriminate || exact Hg). reflexivity. }
  split; [exact H1|]. split; [rewrite H2; exact H1|].
  intros cfg'. unfold isDoubleClick. rewrite H2, H1.
  destruct (eDown (this (exec (down e2) (exec (up cfg e) w))));
    reflexivity.
Qed.

Lemma no_triple_click_witness :
  let u := Event.mk 1 0 0 10 0 105 in
  eLastDown (this (exec (up initial_config u) second_press_world)) = None.
Proof.
  intros u.
  refine (proj1 (proj2 (no_triple_click initial_config second_press_world u
            ev_down_again cb_double ev_down_again _ _ _ _ _ _ _))).
  - vm_compute. reflexivity.
  - vm_compute. reflexivity.
  - reflexivity.
  - vm_compute. discriminate.
  - vm_compute. reflexivity.
  - reflexivity.
  - vm_compute. reflexivity.
Defined.

(** X15.  Whenever an [up] on the session's button returns normally, the
    instance is idle afterwards: the six callback slots are empty, no drag
    is on, the instance's pointer id is not captured, and, when
    [clearEventsOnReset] is set, the three events are gone. *)
Theorem up_closes_session cfg w e d :
  eDown (this w) = Some d ->
  Event.button e = Event.button d ->
  fst (up cfg e w) <> Throw ->
  let w' := exec (up cfg e) w in
  let p' := this w' in
  (onClick p' = None /\ onDoubleClick p' = None /\ onDragStart p' = None
   /\ onDrag p' = None /\ onDragEnd p' = None /\ finally p' = None)
  /\ dragStarted p' = false
  /\ pointerId p' = pointerId (this w)
  /\ is_captured (captured w') (pointerId p') = false
  /\ (clearEventsOnReset (this w) = true ->
      eDown p' = None /\ eMove p' = None /\ eUp p' = None).
Proof.
  intros Hd Hb Hok w' p'. subst p' w'. unfold exec.
  rewrite (up_eq cfg e w d Hd Hb) in *.
  destruct (completeClick_frame cfg e w) as (Hpid & Hcap & _ & Hclr).
  unfold exec in *.
  destruct (completeClick cfg e w) as [[[]|] w1]; cbn [snd fst] in *;
    [|congruence].
  rewrite reset_eq in *.
  destruct (throws_opt (finally (this w1))); cbn [snd fst] in *;
    [congruence|].
  cbn. rewrite Hclr, Hpid. split_and!; try reflexivity.
  - unfold released.
    destruct (is_captured (captured w1) (pointerId (this w1))) eqn:Hc.
    + rewrite Hpid. apply is_captured_drop.
    + rewrite <- Hpid. exact Hc.
  - intros ->. split_and!; reflexivity.
Qed.

Lemma up_closes_session_witness :
  dragStarted (this (exec (up initial_config ev_up_near) dragging_world))
    = false.
Proof.
  refine (proj1 (proj2 (up_closes_session initial_config dragging_world
                          ev_up_near ev_down _ _ _))).
  - vm_compute. reflexivity.
  - reflexivity.
  - vm_compute. discriminate.
Defined.

(** ** A whole drag *)

Lemma run_moves_app cfg ms1 ms2 w :
  run_moves cfg (ms1 ++ ms2) w = run_moves cfg ms2 (run_moves cfg ms1 w).
Proof. unfold run_moves. apply fold_left_app. Qed.

Lemma with_eMove_same p : with_eMove (eMove p) p = p.
Proof. destruct p; reflexivity. Qed.

(** Moves that do not start the drag change [eMove] and nothing else. *)
Lemma run_moves_within_this cfg ms : forall w d,
  eDown (this w) = Some d ->
  dragStarted (this w) = false ->
  Forall (fun m => keeps_button m d /\ within_drift cfg m d
                   /\ Event.timeStamp m - Event.timeStamp d <= bufferTime cfg)
         ms ->
  exists em,
    run_moves cfg ms w =
      {| this := with_eMove em (this w); captured := captured w;
         trace := trace w ++ flat_map (fun m => fire_opt OnDrag
                                         (onDrag (this w)) (ArgEvent m)) ms |}.
Proof.
  induction ms as [|m ms IH]; intros w d Hd Hs Hms.
  - exists (eMove (this w)). cbn. rewrite with_eMove_same, app_nil_r.
    destruct w; reflexivity.
  - inversion Hms as [|? ? (Hk & Hpos & Ht) Hrest]; subst.
    change (run_moves cfg (m :: ms) w)
      with (run_moves cfg ms (exec (move cfg m) w)).
    rewrite (move_within cfg m w d Hd Hs Hk Hpos Ht).
    match goal with |- context [run_moves cfg ms ?x] => set (w1 := x) end.
    destruct (IH w1 d Hd Hs Hrest) as (em & Hrun).
    exists em. rewrite Hrun. subst w1. cbn. rewrite <- app_assoc.
    reflexivity.
Qed.

(** Moves after the drag has started do the same, wherever they go. *)
Lemma run_moves_dragging cfg ms : forall w d,
  eDown (this w) = Some d ->
  dragStarted (this w) = true ->
  Forall (fun m => keeps_button m d) ms ->
  exists em,
    run_moves cfg ms w =
      {| this := with_eMove em (this w); captured := captured w;
         trace := trace w ++ flat_map (fun m => fire_opt OnDrag
                                         (onDrag (this w)) (ArgEvent m)) ms |}.
Proof.
  induction ms as [|m ms IH]; intros w d Hd Hs Hms.
  - exists (eMove (this w)). cbn. rewrite with_eMove_same, app_nil_r.
    destruct w; reflexivity.
  - inversion Hms as [|? ? Hk Hrest]; subst.
    change (run_moves cfg (m :: ms) w)
      with (run_moves cfg ms (exec (move cfg m) w)).
    rewrite (move_dragging cfg w m d Hd Hs Hk).
    match goal with |- context [run_moves cfg ms ?x] => set (w1 := x) end.
    destruct (IH w1 d Hd Hs Hrest) as (em & Hrun).
    exists em. rewrite Hrun. subst w1. cbn. rewrite <- app_assoc.
    reflexivity.
Qed.

Lemma gesture_calls_drags f ms :
  gesture_calls (flat_map (fun m => fire_opt OnDrag f (ArgEvent m)) ms)
    = flat_map (fun m => fire_opt OnDrag f (ArgEvent m)) ms.
Proof.
  induction ms as [|m ms IH]; [reflexivity|]. cbn [flat_map].
  rewrite gesture_calls_app, IH, gesture_calls_fire by discriminate.
  reflexivity.
Qed.

(** X16.  A whole drag, with [onDrag] returning normally: moves that stay
    within the drift and the buffer time, then a move [m] past one of the two
    thresholds, then any moves at all, each keeping the button down, and at
    last an [up] on the session's button.  The gesture callbacks are called
    in exactly this order: [onDrag] for each of the first moves and for [m],
    [onDragStart] once, [onDrag] for each later move, [onDragEnd] once with
    the closing event.  Neither [onClick] nor [onDoubleClick] is called,
    even when the pointer is released where it was pressed. *)
Theorem drag_session_calls cfg w d ms1 m ms2 u :
  eDown (this w) = Some d ->
  dragStarted (this w) = false ->
  throws_opt (onDrag (this w)) = false ->
  Forall (fun m => keeps_button m d /\ within_drift cfg m d
                   /\ Event.timeStamp m - Event.timeStamp d <= bufferTime cfg)
         ms1 ->
  keeps_button m d ->
  bufferTime cfg < Event.timeStamp m - Event.timeStamp d
    \/ ~ within_drift cfg m d ->
  Forall (fun m => keeps_button m d) ms2 ->
  Event.button u = Event.button d ->
  let drags := flat_map (fun m => fire_opt OnDrag (onDrag (this w))
                                           (ArgEvent m)) in
  let tr := session_effects cfg (ms1 ++ m :: ms2) u w in
  gesture_calls tr
    = drags ms1 ++ drags [m]
        ++ fire_opt OnDragStart (onDragStart (this w)) ArgThis
        ++ drags ms2
        ++ fire_opt OnDragEnd (onDragEnd (this w)) (ArgEvent u)
  /\ calls OnClick tr = [] /\ calls OnDoubleClick tr = [].
Proof.
  intros Hd Hs Hq Hms1 Hk Hfar Hms2 Hb drags tr.
  destruct (run_moves_within_this cfg ms1 w d Hd Hs Hms1) as (em1 & H1).
  set (w1 := run_moves cfg ms1 w) in *.
  assert (Hd1 : eDown (this w1) = Some d) by (rewrite H1; exact Hd).
  assert (Hs1 : dragStarted (this w1) = false) by (rewrite H1; exact Hs).
  pose proof (move_starts_drag_eq cfg w1 m d Hd1 Hs1 Hk Hfar) as Hm.
  assert (Hq1 : throws_opt (onDrag (this w1)) = false)
    by (rewrite H1; exact Hq).
  rewrite Hq1 in Hm. cbn [orb] in Hm.
  set (wm := exec (move cfg m) w1) in *.
  assert (Hwm : eDown (this wm) = Some d /\ dragStarted (this wm) = true
                /\ onDrag (this wm) = onDrag (this w)
                /\ onDragEnd (this wm) = onDragEnd (this w)
                /\ trace wm = trace w ++ drags ms1 ++ drags [m]
                     ++ fire_opt OnDragStart (onDragStart (this w)) ArgThis).
  { subst wm. unfold exec. rewrite Hm. cbn [snd].
    rewrite H1. cbn. rewrite app_nil_r, <- !app_assoc.
    destruct (throws_opt (onDragStart (this w))); cbn;
      split_and!; try reflexivity; exact Hd. }
  destruct Hwm as (Hdm & Hsm & Hodm & Hoem & Htm).
  destruct (run_moves_dragging cfg ms2 wm d Hdm Hsm Hms2) as (em2 & H2).
  set (w2 := run_moves cfg ms2 wm) in *.
  assert (Hd2 : eDown (this w2) = Some d) by (rewrite H2; exact Hdm).
  assert (Hs2 : dragStarted (this w2) = true) by (rewrite H2; exact Hsm).
  destruct (up_trace cfg u w2 d Hd2 Hb) as (rest & Hup & Hg).
  unfold exec in Hup at 2.
  rewrite (completeClick_dragging cfg u w2 d Hd2 Hs2) in Hup.
  cbn [snd trace] in Hup.
  assert (Htr : tr = drags ms1 ++ drags [m]
                  ++ fire_opt OnDragStart (onDragStart (this w)) ArgThis
                  ++ drags ms2
                  ++ fire_opt OnDragEnd (onDragEnd (this w)) (ArgEvent u)
                  ++ rest).
  { subst tr. unfold session_effects, session.
    rewrite run_moves_app.
    change (run_moves cfg (m :: ms2) (run_moves cfg ms1 w)) with w2.
    rewrite Hup, H2. cbn [trace this]. rewrite Htm.
    change (onDragEnd (with_eMove em2 (this wm))) with (onDragEnd (this wm)).
    rewrite Hodm, Hoem, <- !app_assoc. apply drop_app_length. }
  assert (Hgc : gesture_calls tr
                = drags ms1 ++ drags [m]
                    ++ fire_opt OnDragStart (onDragStart (this w)) ArgThis
                    ++ drags ms2
                    ++ fire_opt OnDragEnd (onDragEnd (this w)) (ArgEvent u)).
  { rewrite Htr, !gesture_calls_app, Hg, app_nil_r. subst drags.
    rewrite !gesture_calls_drags, !gesture_calls_fire by discriminate.
    reflexivity. }
  split; [exact Hgc|].
  split.
  - rewrite <- calls_gesture, Hgc, !calls_app by discriminate. subst drags.
    rewrite !calls_drags, !calls_fire_other by discriminate. reflexivity.
  - rewrite <- calls_gesture, Hgc, !calls_app by discriminate. subst drags.
    rewrite !calls_drags, !calls_fire_other by discriminate. reflexivity.
Qed.

Lemma drag_session_calls_witness :
  let w := tracking_world in
  let drags := flat_map (fun m => fire_opt OnDrag (onDrag (this w))
                                           (ArgEvent m)) in
  let tr := session_effects initial_config
              ([ev_move_near] ++ ev_move_far :: [ev_move_late]) ev_up_near w in
  gesture_calls tr
    = drags [ev_move_near] ++ drags [ev_move_far]
        ++ fire_opt OnDragStart (onDragStart (this w)) ArgThis
        ++ drags [ev_move_late]
        ++ fire_opt OnDragEnd (onDragEnd (this w)) (ArgEvent ev_up_near)
  /\ calls OnClick tr = [] /\ calls OnDoubleClick tr = [].
Proof.
  intros w.
  apply (drag_session_calls initial_config w ev_down [ev_move_near]
           ev_move_far [ev_move_late] ev_up_near).
  - vm_compute. reflexivity.
  - vm_compute. reflexivity.
  - vm_compute. reflexivity.
  - constructor; [|constructor].
    split_and!; vm_compute; try reflexivity; discriminate.
  - vm_compute. discriminate.
  - right. vm_compute. intros H. apply H. reflexivity.
  - constructor; [|constructor]. vm_compute. discriminate.
  - reflexivity.
Defined.

(** X17.  A move that reports the session's button released is handled as
    the [up] for it: when the event's button mask shares nothing with that
    of [eDown] and its button index is the session's, [move] leaves exactly
    the state and the effects [up] would; only the return value differs. *)
Theorem move_button_released_like_up cfg w e d :
  eDown (this w) = Some d ->
  Event.buttons e <> 0 ->
  Z.land (Event.buttons e) (Event.buttons d) = 0 ->
  Event.button e = Event.button d ->
  exec (move cfg e) w = exec (up cfg e) w
  /\ effects (move cfg e) w = effects (up cfg e) w.
Proof.
  intros Hd Hb Hk Hbtn.
  assert (H : exec (move cfg e) w = exec (up cfg e) w).
  { unfold exec.
    rewrite (move_closing cfg e w d Hd Hb Hk), (up_eq cfg e w d Hd Hbtn).
    unfold bind.
    destruct (completeClick cfg e w) as [[[]|] w1]; [|reflexivity].
    destruct (reset w1) as [[[]|] w2]; reflexivity. }
  split; [exact H|]. unfold effects. rewrite H. reflexivity.
Qed.

Lemma move_button_released_like_up_witness :
  exec (move initial_config ev_move_other) moved_world
    = exec (up initial_config ev_move_other) moved_world.
Proof.
  refine (proj1 (move_button_released_like_up initial_config moved_world
                   ev_move_other ev_down _ _ _ _)).
  - vm_compute. reflexivity.
  - vm_compute. discriminate.
  - vm_compute. reflexivity.
  - reflexivity.
Defined.

(** ** A press released where it went down *)




(** ** Invariants of every run *)

Lemma is_captured_empty pid : is_captured ∅ pid = false.
Proof.
  destruct pid as [n|]; [|reflexivity]. unfold is_captured.
  apply bool_decide_eq_false_2. apply not_elem_of_empty.
Qed.

Lemma is_captured_singleton n : is_captured {[n]} (Some n) = true.
Proof.
  unfold is_captured. apply bool_decide_eq_true_2, elem_of_singleton.
  reflexivity.
Qed.

(** Under [capture_ok], a [reset] that runs to its end leaves nothing
    captured. *)
Lemma released_empty w : capture_ok w -> released w = ∅.
Proof.
  unfold released. intros [H|(n & Hp & Hc & _)].
  - rewrite H, is_captured_empty. reflexivity.
  - rewrite Hp, Hc, is_captured_singleton. unfold drop_capture.
    apply difference_diag_L.
Qed.

Lemma reset_inv w :
  capture_ok w /\ drag_ok w ->
  capture_ok (exec reset w) /\ drag_ok (exec reset w).
Proof.
  intros [Hc Hdr]. unfold exec. rewrite reset_eq.
  destruct (throws_opt (finally (this w))); cbn [snd].
  - split; [exact Hc | exact Hdr].
  - split.
    + left. cbn. apply released_empty, Hc.
    + unfold drag_ok. cbn. discriminate.
Qed.

Lemma down_inv e w :
  capture_ok w /\ drag_ok w ->
  capture_ok (exec (down e) w) /\ drag_ok (exec (down e) w).
Proof.
  intros Hinv. destruct (throws_opt (finally (this w))) eqn:Ht.
  - assert (Hd : down e w = reset w).
    { unfold down, bind at 1. rewrite reset_eq, Ht. reflexivity. }
    unfold exec. rewrite Hd. apply reset_inv, Hinv.
  - unfold exec. rewrite (down_eq e w Ht). cbn [snd]. split.
    + right. exists (Event.pointerId e). cbn.
      rewrite (released_empty w (proj1 Hinv)). unfold add_capture.
      split_and!; [reflexivity | apply union_empty_r_L | discriminate].
    + unfold drag_ok. cbn. discriminate.
Qed.

Lemma completeClick_inv cfg e w :
  capture_ok w /\ drag_ok w ->
  capture_ok (exec (completeClick cfg e) w)
  /\ drag_ok (exec (completeClick cfg e) w).
Proof.
  intros [Hc Hdr].
  destruct (completeClick_frame cfg e w) as (Hpid & Hcap & Hd & _).
  split.
  - unfold capture_ok. rewrite Hpid, Hcap, Hd. exact Hc.
  - unfold drag_ok. rewrite Hd.
    destruct (eDown (this w)) as [d|] eqn:Hed; [discriminate|].
    assert (Hnop : completeClick cfg e w = (Ok tt, w)).
    { unfold completeClick, bind, gets, ret. rewrite Hed. reflexivity. }
    unfold exec. rewrite Hnop. cbn [snd]. intros Hs.
    apply Hdr in Hs. rewrite Hed in Hs. exact Hs.
Qed.

(** A move that keeps the button down leaves the pointer id, the capture and
    [eDown] alone. *)
Lemma move_tracked_frame cfg e w d :
  eDown (this w) = Some d ->
  keeps_button e d ->
  pointerId (this (exec (move cfg e) w)) = pointerId (this w)
  /\ captured (exec (move cfg e) w) = captured w
  /\ eDown (this (exec (move cfg e) w)) = Some d.
Proof.
  intros Hd Hk.
  pose proof (keeps_button_pressed _ _ Hk) as Hb.
  apply Z.eqb_neq in Hb. apply Z.eqb_neq in Hk.
  unfold exec, move, bind, gets, assign, call_opt, call, emit, ret.
  rewrite Hd. cbn. rewrite Hb, Hk. cbn.
  destruct (onDrag (this w)) as [f|]; cbn; try destruct (cb_throws f); cbn;
    try destruct (dragStarted (this w)); cbn;
    try destruct (_ || _); cbn; rewrite ?setDragStarted_eq; cbn;
    try destruct (throws_opt (onDragStart (this w))); cbn;
    split_and!; try reflexivity; exact Hd.
Qed.

Lemma up_without_session_ignored_aux cfg w e :
  eDown (this w) = None -> up cfg e w = (Ok false, w).
Proof. intros Hd. unfold up, bind, gets, ret. rewrite Hd. reflexivity. Qed.

Lemma up_other_button_ignored_aux cfg w e d :
  eDown (this w) = Some d ->
  Event.button e <> Event.button d ->
  up cfg e w = (Ok false, w).
Proof.
  intros Hd Hb. unfold up, bind, gets, ret. rewrite Hd.
  apply Z.eqb_neq in Hb. rewrite Hb. reflexivity.
Qed.

Lemma move_without_session_aux cfg w e :
  eDown (this w) = None -> move cfg e w = (Ok tt, w).
Proof. intros Hd. unfold move, bind, gets, ret. rewrite Hd. reflexivity. Qed.

Lemma seq_reset_inv {A} (m : M A) w :
  (capture_ok (exec m w) /\ drag_ok (exec m w)) ->
  capture_ok (exec (m ;; reset) w) /\ drag_ok (exec (m ;; reset) w).
Proof.
  intros H. unfold exec, bind in *.
  destruct (m w) as [[a|] w1]; cbn [snd] in *; [|exact H].
  apply (reset_inv w1 H).
Qed.

Lemma move_inv cfg e w :
  capture_ok w /\ drag_ok w ->
  capture_ok (exec (move cfg e) w) /\ drag_ok (exec (move cfg e) w).
Proof.
  intros Hinv.
  destruct (eDown (this w)) as [d|] eqn:Hd.
  2:{ unfold exec. rewrite (move_without_session_aux cfg w e Hd).
      exact Hinv. }
  destruct (Z.eq_dec (Event.buttons e) 0) as [Hb|Hb].
  { assert (Hm : move cfg e w = reset w).
    { unfold move, bind, gets. rewrite Hd. cbn. rewrite Hb. reflexivity. }
    unfold exec. rewrite Hm. apply reset_inv, Hinv. }
  destruct (Z.eq_dec (Z.land (Event.buttons e) (Event.buttons d)) 0)
    as [Hk|Hk].
  { unfold exec. rewrite (move_closing cfg e w d Hd Hb Hk).
    apply seq_reset_inv, completeClick_inv, Hinv. }
  destruct (move_tracked_frame cfg e w d Hd Hk) as (Hpid & Hcap & Hed).
  split.
  - unfold capture_ok. rewrite Hpid, Hcap, Hed.
    destruct Hinv as [[Hc|(n & Hp & Hc & _)] _].
    + left. exact Hc.
    + right. exists n. split_and!; [exact Hp | exact Hc | discriminate].
  - unfold drag_ok. rewrite Hed. discriminate.
Qed.

Lemma up_inv cfg e w :
  capture_ok w /\ drag_ok w ->
  capture_ok (exec (up cfg e) w) /\ drag_ok (exec (up cfg e) w).
Proof.
  intros Hinv.
  destruct (eDown (this w)) as [d|] eqn:Hd.
  2:{ unfold exec. rewrite (up_without_session_ignored_aux cfg w e Hd).
      exact Hinv. }
  destruct (Z.eq_dec (Event.button e) (Event.button d)) as [Hb|Hb].
  - pose proof (seq_reset_inv (completeClick cfg e) w
                  (completeClick_inv cfg e w Hinv)) as H.
    unfold exec in *. rewrite (up_eq cfg e w d Hd Hb). unfold bind in H.
    destruct (completeClick cfg e w) as [[[]|] w1]; cbn [snd] in *;
      [|exact H].
    destruct (reset w1) as [[[]|] w2]; exact H.
  - unfold exec. rewrite (up_other_button_ignored_aux cfg w e d Hd Hb).
    exact Hinv.
Qed.

Lemma step_inv cfg w a :
  capture_ok w /\ drag_ok w ->
  capture_ok (step cfg w a) /\ drag_ok (step cfg w a).
Proof.
  intros Hinv. destruct a; cbn [step].
  - apply down_inv, Hinv.
  - apply move_inv, Hinv.
  - apply up_inv, Hinv.
  - apply reset_inv, Hinv.
  - unfold exec. rewrite set_finally_eq. exact Hinv.
  - exact Hinv.
  - exact Hinv.
  - exact Hinv.
  - exact Hinv.
  - exact Hinv.
  - exact Hinv.
Qed.

Lemma host_run_inv l : forall s,
  capture_ok (snd s) /\ drag_ok (snd s) ->
  capture_ok (snd (host_run s l)) /\ drag_ok (snd (host_run s l)).
Proof.
  unfold host_run. induction l as [|h l IH]; intros s Hinv; [exact Hinv|].
  cbn [fold_left]. apply IH. destruct h as [a|c]; cbn [host_step snd].
  - apply step_inv, Hinv.
  - exact Hinv.
Qed.

(** X19.  Whatever the host does with a fresh instance (any sequence of
    [down], [move], [up] and [reset] calls, assignments to the callbacks and
    to [finally], switches of [clearEventsOnReset] and writes to the static
    configuration; callbacks may throw), the element captures at most one
    pointer for it: the one in [pointerId], and only while an [eDown] is on
    record; and [dragStarted] is set only while an [eDown] is on record. *)
Theorem run_keeps_single_capture l :
  let w := snd (host_run (initial_config, new_world) l) in
  (forall n, n ∈ captured w ->
     pointerId (this w) = Some n /\ eDown (this w) <> None)
  /\ (dragStarted (this w) = true -> eDown (this w) <> None).
Proof.
  intros w.
  assert (Hinv : capture_ok w /\ drag_ok w).
  { apply host_run_inv. split.
    - left. reflexivity.
    - unfold drag_ok. cbn. discriminate. }
  destruct Hinv as [Hc Hdr]. split; [|exact Hdr].
  intros n Hn. destruct Hc as [He|(m & Hp & Hcap & Hd)].
  - rewrite He in Hn. exfalso. exact (not_elem_of_empty n Hn).
  - rewrite Hcap in Hn. apply elem_of_singleton in Hn. subst m.
    split; assumption.
Qed.

Lemma run_keeps_single_capture_witness :
  let w := snd (host_run (initial_config, new_world)
                  [Call (Down ev_down); Configure (WriteMaxClickDrift 2);
                   Call (Move ev_move_near)]) in
  pointerId (this w) = Some 1 /\ eDown (this w) <> None.
Proof.
  intros w.
  refine (proj1 (run_keeps_single_capture
                   [Call (Down ev_down); Configure (WriteMaxClickDrift 2);
                    Call (Move ev_move_near)]) 1 _).
  vm_compute. reflexivity.
Defined.

(** ** Callbacks run once *)

Lemma quiet_reset_fields p : quiet (reset_fields p).
Proof. unfold quiet. cbn. repeat split. Qed.

Lemma slot_reset_fields s p : slot s (reset_fields p) = None.
Proof. destruct s; reflexivity. Qed.

Ltac once_cases :=
  first [ left; reflexivity
        | right; split_and!; [reflexivity | reflexivity | discriminate] ].

Lemma once_reset w : quiet (this w) -> once_step w (exec reset w).
Proof.
  intros (_ & _ & _ & _ & _ & Hf). unfold exec. rewrite reset_eq, Hf.
  cbn [snd]. split; [apply quiet_reset_fields|].
  eexists. split; [reflexivity|]. cbn [this].
  intros s Hs. split; [intros _; apply slot_reset_fields|].
  rewrite slot_reset_fields, calls_app, calls_release_part, app_nil_r.
  destruct s; try congruence; cbn [slot];
    destruct (finally (this w)); once_cases.
Qed.

Lemma once_down e w : quiet (this w) -> once_step w (exec (down e) w).
Proof.
  intros (_ & _ & _ & _ & _ & Hf). unfold exec. rewrite (down_eq e w Hf).
  cbn [snd]. split; [unfold quiet; cbn; repeat split|].
  eexists. split; [rewrite <- !app_assoc; reflexivity|]. cbn [this].
  intros s Hs. split; [intros _; destruct s; reflexivity|].
  rewrite !calls_app, calls_release_part. cbn [app].
  destruct s; try congruence; cbn [slot];
    destruct (finally (this w)); once_cases.
Qed.

Lemma once_refl w : quiet (this w) -> once_step w w.
Proof.
  intros Hq. split; [exact Hq|]. exists []. split.
  - symmetry. apply app_nil_r.
  - intros s _. split; [tauto | left; reflexivity].
Qed.

(** [#completeClick] followed by [reset], as [up] and a closing move run
    them. *)
Lemma once_close cfg e w d :
  quiet (this w) ->
  eDown (this w) = Some d ->
  once_step w (exec (completeClick cfg e ;; reset) w).
Proof.
  intros (Hds & _ & Hde & Hc & Hdc & Hf) Hd. unfold exec, bind.
  destruct (dragStarted (this w)) eqn:Hs.
  - rewrite (completeClick_dragging cfg e w d Hd Hs), Hde, reset_eq.
    cbn [this finally with_eUp]. rewrite Hf. cbn [snd trace this].
    split; [apply quiet_reset_fields|].
    eexists. split; [rewrite <- app_assoc; reflexivity|].
    intros s Hsn. cbn [this]. split; [intros _; apply slot_reset_fields|].
    rewrite slot_reset_fields, !calls_app, calls_release_part, app_nil_r.
    destruct s; try congruence; cbn [slot];
      destruct (onDragEnd (this w)), (finally (this w)); once_cases.
  - destruct (hasSamePosition e d (maxClickDrift2 cfg)) eqn:Hpos.
    + rewrite (completeClick_click_eq cfg e w d Hd Hs Hpos Hc Hdc), reset_eq.
      cbn [this finally with_eUp with_eLastDown]. rewrite Hf.
      cbn [snd trace this].
      split; [apply quiet_reset_fields|].
      eexists. split; [rewrite <- app_assoc; reflexivity|].
      intros s Hsn. cbn [this]. split; [intros _; apply slot_reset_fields|].
      rewrite slot_reset_fields, !calls_app, calls_release_part, app_nil_r.
      unfold click_part.
      destruct s; try congruence; cbn [slot];
        destruct (onDoubleClick (this w)), (isDoubleClick cfg (this w)),
          (onClick (this w)), (finally (this w)); once_cases.
    + rewrite (completeClick_teleport_eq cfg e w d Hd Hs Hpos Hds), Hde,
        reset_eq.
      cbn [this finally with_eUp with_dragStarted with_onDragStart].
      rewrite Hf. cbn [snd trace this].
      split; [apply quiet_reset_fields|].
      eexists. split; [rewrite <- app_assoc; reflexivity|].
      intros s Hsn. cbn [this]. split; [intros _; apply slot_reset_fields|].
      rewrite slot_reset_fields, !calls_app, calls_release_part, app_nil_r.
      unfold teleport_part.
      destruct s; try congruence; cbn [slot];
        destruct (onDragStart (this w)), (onDragEnd (this w)),
          (finally (this w)); once_cases.
Qed.

Lemma once_move cfg e w : quiet (this w) -> once_step w (exec (move cfg e) w).
Proof.
  intros Hq.
  destruct (eDown (this w)) as [d|] eqn:Hd.
  2:{ unfold exec. rewrite (move_without_session_aux cfg w e Hd).
      apply once_refl, Hq. }
  destruct (Z.eq_dec (Event.buttons e) 0) as [Hb|Hb].
  { assert (Hm : move cfg e w = reset w).
    { unfold move, bind, gets. rewrite Hd. cbn. rewrite Hb. reflexivity. }
    unfold exec. rewrite Hm. apply once_reset, Hq. }
  destruct (Z.eq_dec (Z.land (Event.buttons e) (Event.buttons d)) 0)
    as [Hk|Hk].
  { unfold exec. rewrite (move_closing cfg e w d Hd Hb Hk).
    apply (once_close cfg e w d Hq Hd). }
  fold (keeps_button e d) in Hk.
  destruct Hq as (Hds & Hdr & Hde & Hc & Hdc & Hf).
  destruct (dragStarted (this w)) eqn:Hs.
  { rewrite (move_dragging cfg w e d Hd Hs Hk).
    split; [unfold quiet; cbn; repeat split; assumption|].
    eexists. split; [reflexivity|]. cbn [this].
    intros s Hsn. split; [destruct s; cbn; tauto|].
    left. apply calls_fire_other. congruence. }
  destruct (Z_lt_dec (bufferTime cfg)
              (Event.timeStamp e - Event.timeStamp d)) as [Ht|Ht].
  2: destruct (hasSamePosition e d (maxClickDrift2 cfg)) eqn:Hpos.
  - unfold exec.
    rewrite (move_starts_drag_eq cfg w e d Hd Hs Hk (or_introl Ht)), Hdr, Hds.
    cbn [snd orb]. split; [unfold quiet; cbn; repeat split; assumption|].
    eexists. split; [reflexivity|]. cbn [this].
    intros s Hsn. split; [destruct s; cbn; tauto|].
    rewrite calls_app, calls_fire_other by congruence. cbn [app].
    destruct s; try congruence; cbn [slot];
      destruct (onDragStart (this w)); once_cases.
  - apply hasSamePosition_true in Hpos.
    rewrite (move_within cfg e w d Hd Hs Hk Hpos ltac:(lia)).
    split; [unfold quiet; cbn; repeat split; assumption|].
    eexists. split; [reflexivity|]. cbn [this].
    intros s Hsn. split; [destruct s; cbn; tauto|].
    left. apply calls_fire_other. congruence.
  - apply hasSamePosition_false in Hpos. unfold exec.
    rewrite (move_starts_drag_eq cfg w e d Hd Hs Hk (or_intror Hpos)),
      Hdr, Hds.
    cbn [snd orb]. split; [unfold quiet; cbn; repeat split; assumption|].
    eexists. split; [reflexivity|]. cbn [this].
    intros s Hsn. split; [destruct s; cbn; tauto|].
    rewrite calls_app, calls_fire_other by congruence. cbn [app].
    destruct s; try congruence; cbn [slot];
      destruct (onDragStart (this w)); once_cases.
Qed.

Lemma once_up cfg e w : quiet (this w) -> once_step w (exec (up cfg e) w).
Proof.
  intros Hq.
  destruct (eDown (this w)) as [d|] eqn:Hd.
  2:{ unfold exec. rewrite (up_without_session_ignored_aux cfg w e Hd).
      apply once_refl, Hq. }
  destruct (Z.eq_dec (Event.button e) (Event.button d)) as [Hb|Hb].
  - pose proof (once_close cfg e w d Hq Hd) as H.
    unfold exec in *. rewrite (up_eq cfg e w d Hd Hb). unfold bind in H.
    destruct (completeClick cfg e w) as [[[]|] w1]; cbn [snd] in *;
      [|exact H].
    destruct (reset w1) as [[[]|] w2]; exact H.
  - unfold exec. rewrite (up_other_button_ignored_aux cfg w e d Hd Hb).
    apply once_refl, Hq.
Qed.

Lemma once_method cfg w a :
  quiet (this w) -> is_method_call a = true -> once_step w (step cfg w a).
Proof.
  intros Hq Ha. destruct a; try discriminate; cbn [step].
  - apply once_down, Hq.
  - apply once_move, Hq.
  - apply once_up, Hq.
  - apply once_reset, Hq.
Qed.

Lemma run_once cfg l : forall w,
  quiet (this w) ->
  forallb is_method_call l = true ->
  exists T,
    trace (run cfg w l) = trace w ++ T
    /\ forall s, s <> OnDrag ->
         (length (calls s T) <= 1)%nat
         /\ (slot s (this w) = None -> calls s T = []).
Proof.
  unfold run. induction l as [|a l IH]; intros w Hq Hl.
  - exists []. split; [symmetry; apply app_nil_r|].
    intros s _. split; [cbn; lia | reflexivity].
  - cbn [forallb] in Hl. apply andb_true_iff in Hl. destruct Hl as [Ha Hl].
    destruct (once_method cfg w a Hq Ha) as (Hq' & t & Ht & Hstep).
    destruct (IH (step cfg w a) Hq' Hl) as (T & HT & Hrest).
    exists (t ++ T). cbn [fold_left]. split.
    + rewrite HT, Ht, app_assoc. reflexivity.
    + intros s Hs. destruct (Hstep s Hs) as (Hmono & Hcalls).
      destruct (Hrest s Hs) as (Hle & Hnone).
      rewrite calls_app, length_app. split.
      * destruct Hcalls as [H0|(H1 & Hspent & _)].
        -- rewrite H0. cbn. exact Hle.
        -- rewrite H1, (Hnone Hspent). cbn. lia.
      * intros Hn. destruct Hcalls as [H0|(_ & _ & Hne)]; [|contradiction].
        rewrite H0, (Hnone (Hmono Hn)). reflexivity.
Qed.

(** X20.  Each registration runs at most once.  Start from any state whose
    registered callbacks return normally and let the host call [down],
    [move], [up] and [reset] in any order and number, without assigning a
    callback in between: [onClick], [onDoubleClick], [onDragStart],
    [onDragEnd] and [finally] are each called at most once, and a slot that
    was empty is never called.  ([onDrag] is the one callback that may run
    many times.) *)
Theorem callbacks_run_once cfg w l s :
  quiet (this w) ->
  forallb is_method_call l = true ->
  s <> OnDrag ->
  let tr := drop (length (trace w)) (trace (run cfg w l)) in
  (length (calls s tr) <= 1)%nat
  /\ (slot s (this w) = None -> calls s tr = []).
Proof.
  intros Hq Hl Hs tr. subst tr.
  destruct (run_once cfg l w Hq Hl) as (T & HT & H).
  rewrite HT, drop_app_length. apply H, Hs.
Qed.

Lemma callbacks_run_once_witness :
  let l := [Move ev_move_near; Up ev_up_near; Up ev_up_near;
            Down ev_down_again; Up ev_up_near] in
  let tr := drop (length (trace tracking_world))
              (trace (run initial_config tracking_world l)) in
  (length (calls OnClick tr) <= 1)%nat
  /\ (slot OnClick (this tracking_world) = None -> calls OnClick tr = []).
Proof.
  intros l.
  apply (callbacks_run_once initial_config tracking_world l OnClick).
  - vm_compute. split_and!; reflexivity.
  - reflexivity.
  - discriminate.
Defined.

(** ** The drag thresholds *)

(** X21.  The two thresholds of [move] are exclusive bounds.  In a session
    where no drag has started, a move that keeps the button down (and whose
    [onDrag] returns normally) starts the drag exactly when the time since
    [eDown] is strictly more than [bufferTime] or the squared distance from
    [eDown] is strictly more than the cached squared drift; a move exactly
    at both limits does not. *)
Theorem move_starts_drag_iff cfg w e d :
  eDown (this w) = Some d ->
  dragStarted (this w) = false ->
  keeps_button e d ->
  throws_opt (onDrag (this w)) = false ->
  dragStarted (this (exec (move cfg e) w)) = true
  <-> (bufferTime cfg < Event.timeStamp e - Event.timeStamp d
       \/ maxClickDrift2 cfg
            < dist2 (Event.clientX e) (Event.clientY e)
                    (Event.clientX d) (Event.clientY d)).
Proof.
  intros Hd Hs Hk Hq.
  destruct (Z_lt_dec (bufferTime cfg)
              (Event.timeStamp e - Event.timeStamp d)) as [Ht|Ht].
  - unfold exec.
    rewrite (move_starts_drag_eq cfg w e d Hd Hs Hk (or_introl Ht)), Hq.
    cbn. split; [intros _; left; exact Ht|intros _].
    destruct (throws_opt (onDragStart (this w))); reflexivity.
  - destruct (Z_le_dec (dist2 (Event.clientX e) (Event.clientY e)
                              (Event.clientX d) (Event.clientY d))
                (maxClickDrift2 cfg)) as [Hpos|Hpos].
    + rewrite (move_within cfg e w d Hd Hs Hk Hpos ltac:(lia)). cbn.
      rewrite Hs. split; [discriminate | lia].
    + unfold exec.
      rewrite (move_starts_drag_eq cfg w e d Hd Hs Hk (or_intror Hpos)), Hq.
      cbn. split; [intros _; right; lia|intros _].
      destruct (throws_opt (onDragStart (this w))); reflexivity.
Qed.

Lemma move_starts_drag_iff_witness :
  let e := Event.mk 1 0 1 6 0 150 in
  dragStarted (this (exec (move initial_config e) tracking_world)) = true
  <-> (bufferTime initial_config
         < Event.timeStamp e - Event.timeStamp ev_down
       \/ maxClickDrift2 initial_config
            < dist2 (Event.clientX e) (Event.clientY e)
                    (Event.clientX ev_down) (Event.clientY ev_down)).
Proof.
  intros e.
  apply (move_starts_drag_iff initial_config tracking_world e ev_down).
  - vm_compute. reflexivity.
  - vm_compute. reflexivity.
  - vm_compute. discriminate.
  - vm_compute. reflexivity.
Defined.

(** ** The lint-staged configuration *)

Module LintStagedProps.

Import Stdlib.Strings.String.
Import LintStaged.
Local Open Scope string_scope.

Lemma append_assoc (a b c : string) : (a ++ b) ++ c = a ++ b ++ c.
Proof.
  induction a as [|x a IH]; [reflexivity|].
  change (String x ((a ++ b) ++ c) = String x (a ++ b ++ c)).
  rewrite IH. reflexivity.
Qed.

Lemma append_empty_r (a : string) : a ++ "" = a.
Proof.
  induction a as [|x a IH]; [reflexivity|].
  change (String x (a ++ "") = String x a).
  rewrite IH. reflexivity.
Qed.

Lemma occurs_in_prefixed (f p s : string) :
  occurs_in f s -> occurs_in f (p ++ s).
Proof.
  intros (pre & post & ->). exists (p ++ pre), post.
  symmetry. apply append_assoc.
Qed.

Lemma occurs_in_join sep f (files : list string) :
  In f files -> occurs_in f (join sep files).
Proof.
  unfold join. induction files as [|x files IH]; [intros []|].
  intros [->|Hin].
  - destruct files as [|y files]; cbn.
    + exists "", "". cbn. symmetry. apply append_empty_r.
    + exists "", (sep ++ concat sep (y :: files)). reflexivity.
  - destruct files as [|y files]; [destruct Hin|].
    change (concat sep (x :: y :: files))
      with (x ++ sep ++ concat sep (y :: files)).
    apply occurs_in_prefixed, occurs_in_prefixed, IH, Hin.
Qed.

(** X22.  Every staged file is handed to the formatters: for each of the
    three rules and each staged file name, the name occurs in the
    [prettier] command, and for the [js] and [ts] rules also in the [eslint]
    command; the only commands of the [ts] rule that do not name the files
    are the two type checks, which come last. *)
Theorem staged_files_all_named (files : list string) (f : string) :
  In f files ->
  occurs_in f (css_rule files)
  /\ Forall (occurs_in f) (js_rule files)
  /\ (exists c1 c2,
        ts_rule files = [c1; c2; "tsc --noEmit"; "tsc-strict"]%list
        /\ js_rule files = [c1; c2]%list
        /\ occurs_in f c1 /\ occurs_in f c2).
Proof.
  intros Hin. pose proof (occurs_in_join " " f files Hin) as Hj.
  assert (H1 : occurs_in f ("prettier --write " ++ join " " files))
    by (apply occurs_in_prefixed, Hj).
  assert (H2 : occurs_in f ("eslint --fix " ++ join " " files))
    by (apply occurs_in_prefixed, Hj).
  split; [exact H1|]. split.
  - unfold js_rule, prettierAndEslint.
    constructor; [exact H1|]. constructor; [exact H2|]. constructor.
  - eexists _, _. split; [reflexivity|]. split; [reflexivity|].
    split; [exact H1 | exact H2].
Qed.

Lemma staged_files_all_named_witness :
  occurs_in "src/b.ts" (css_rule ["src/a.ts"; "src/b.ts"; "c.mts"]%list).
Proof.
  refine (proj1 (staged_files_all_named ["src/a.ts"; "src/b.ts"; "c.mts"]%list
                   "src/b.ts" _)).
  right. left. reflexivity.
Defined.

End LintStagedProps.
